(** * draw.py: heat-map pixel art, grid construction and commit driver

    A shallow embedding of [draw.py] and the properties of its grid
    compositor, shading mapper, date helpers, preview totals and commit
    driver.

    Conventions of the embedding:
    - Python integers are [Z]; loop indices produced by [range] and
      [enumerate] are [nat] and are injected into [Z] where they are used
      as subscripts or in arithmetic.
    - A Python exception is the [None] of the option monad
      ([IndexError] for subscripts, [OverflowError] for dates).
    - The module-level [grid], mutated in place by the source, is threaded
      explicitly through the functions that touch it.  Its seven rows are
      distinct list objects (built by a comprehension), so a nested list
      value is an exact model.
    - What the script prints is a list of structured lines, one
      constructor per [print] statement, carrying the interpolated values.
    - The external [git] process is an oracle acting on an abstract
      repository state; every call and its result are appended to a
      trace. *)

From stdpp Require Import base numbers option list sorting strings gmap pretty.

Local Open Scope Z_scope.
Local Coercion Z.of_nat : nat >-> Z.

(** * Part I: the program *)

(** ** The fragment of the Python runtime the script relies on *)

Module Py.

(** Subscript resolution on a sequence of length [len]: non-negative
    indices address from the front, negative ones from the back, and
    anything else raises [IndexError]. *)
Definition index (len : nat) (i : Z) : option nat :=
  if bool_decide (0 ≤ i < len) then Some (Z.to_nat i)
  else if bool_decide (- len ≤ i < 0) then Some (Z.to_nat (len + i))
  else None.

(** [l[i]] *)
Definition getitem {A} (l : list A) (i : Z) : option A :=
  k ← index (length l) i; l !! k.

(** [l[i] = v] *)
Definition setitem {A} (l : list A) (i : Z) (v : A) : option (list A) :=
  k ← index (length l) i; Some (<[k := v]> l).

(** Truth value of an integer. *)
Definition truthy (v : Z) : bool := bool_decide (v ≠ 0).

(** [range(n)] for a [nat] bound, and for an arbitrary integer bound
    (empty when the bound is not positive). *)
Definition range (n : nat) : list nat := seq 0 n.

Definition rangeZ (n : Z) : list nat := seq 0 (Z.to_nat n).

(** [range(start, stop, step)] for a positive [step]. *)
Definition range3 (start stop step : Z) : list Z :=
  (λ k : nat, start + step * k) <$>
    seq 0 (Z.to_nat ((stop - start + step - 1) `div` step)).

(** [enumerate(l)] *)
Definition enumerate {A} (l : list A) : list (nat * A) :=
  zip (seq 0 (length l)) l.

(** [for x in xs: body], threading the mutable state [s]; the loop
    stops at the first exception. *)
Fixpoint for_ {I S} (xs : list I) (body : I → S → option S) (s : S)
  : option S :=
  match xs with
  | [] => Some s
  | x :: rest => s' ← body x s; for_ rest body s'
  end.

(** *** [datetime] and [timedelta]

    A [datetime] is the proleptic Gregorian ordinal of its day
    (day 1 is 0001-01-01, a Monday) and the microseconds elapsed since
    midnight.  The representable days are those of the years 1 to 9999;
    arithmetic leaving that range raises [OverflowError]. *)
Record datetime := Datetime { ordinal : Z; micros : Z }.

Definition MINORDINAL : Z := 1.
Definition MAXORDINAL : Z := 3652059.
Definition MAX_DELTA_DAYS : Z := 999999999.
(** [timedelta(days=n)], as its number of days. *)
Definition timedelta_days (n : Z) : option Z :=
  if bool_decide (- MAX_DELTA_DAYS ≤ n ≤ MAX_DELTA_DAYS)
  then Some n else None.

(** [timedelta(weeks=n)] *)
Definition timedelta_weeks (n : Z) : option Z := timedelta_days (7 * n).

(** [d + delta] and [d - delta] for a whole number of days. *)
Definition dt_add (d : datetime) (delta : Z) : option datetime :=
  let o := ordinal d + delta in
  if bool_decide (MINORDINAL ≤ o ≤ MAXORDINAL)
  then Some (Datetime o (micros d)) else None.

Definition dt_sub (d : datetime) (delta : Z) : option datetime :=
  dt_add d (- delta).

(** [d.weekday()]: Monday is 0 and Sunday is 6. *)
Definition weekday (d : datetime) : Z := (ordinal d + 6) `mod` 7.

Definition SUNDAY : Z := 6.

(** [d.replace(hour=0, minute=0, second=0, microsecond=0)] *)
Definition replace_midnight (d : datetime) : datetime :=
  Datetime (ordinal d) 0.

(** The order of [datetime] values. *)
Definition dt_lt (a b : datetime) : Prop :=
  ordinal a < ordinal b ∨ (ordinal a = ordinal b ∧ micros a < micros b).

Definition dt_le (a b : datetime) : Prop := dt_lt a b ∨ a = b.

(** *** [subprocess.run]

    What a call passes to the child process, and what comes back. *)
Record invocation := Invocation {
  argv : list string;
  env : gmap string string
}.

Record completed := Completed {
  returncode : Z;
  stderr : string
}.

End Py.

Import Py.

(** ** Sprites *)

Abbreviation Sprite := (list (list Z)).

Definition PACMAN_LEFT : Sprite :=
  [ [0; 1; 1; 1; 1; 1; 0];
    [1; 1; 1; 1; 1; 1; 1];
    [0; 1; 1; 1; 1; 1; 1];
    [0; 0; 0; 1; 1; 1; 1];
    [0; 1; 1; 1; 1; 1; 1];
    [1; 1; 1; 1; 1; 1; 1];
    [0; 1; 1; 1; 1; 1; 0] ].

Definition GHOST : Sprite :=
  [ [0; 1; 1; 1; 1; 1; 0];
    [1; 1; 1; 1; 1; 1; 1];
    [1; 1; 0; 1; 0; 1; 1];
    [1; 1; 1; 1; 1; 1; 1];
    [1; 1; 1; 1; 1; 1; 1];
    [1; 1; 1; 1; 1; 1; 1];
    [1; 0; 1; 0; 1; 0; 1] ].

(** ** The grid *)

Abbreviation Grid := (list (list Z)).

Definition ROWS : nat := 7.
Definition COLS : nat := 52.

(** [[[0] * COLS for _ in range(7)]] *)
Definition grid0 : Grid := (λ _, replicate COLS 0) <$> range 7.

(** [grid[r][c]] *)
Definition grid_get (g : Grid) (r c : Z) : option Z :=
  row ← getitem g r; getitem row c.

(** [grid[r][c] = v]: the row object is fetched, then updated in place. *)
Definition grid_set (g : Grid) (r c : Z) (v : Z) : option Grid :=
  row ← getitem g r;
  row' ← setitem row c v;
  setitem g r row'.

Definition place (sprite : Sprite) (start_col : Z) (grid : Grid)
  : option Grid :=
  for_ (enumerate sprite) (λ '(r, row) grid,
    for_ (enumerate row) (λ '(c, val) grid,
      let col := start_col + c in
      if bool_decide (col < COLS)
      then grid_set grid r col (if truthy val then 1 else 0)
      else Some grid) grid) grid.

(** The dotted trail of row 3. *)
Definition trail (grid : Grid) : option Grid :=
  for_ (range3 11 40 2) (λ col grid, grid_set grid 3 col 1) grid.

(** The inversion loop. *)
Definition invert (grid : Grid) : option Grid :=
  for_ (range 7) (λ _r grid,
    for_ (range COLS) (λ _c grid,
      v ← grid_get grid _r _c;
      grid_set grid _r _c (1 - v)) grid) grid.

Definition COMMITS_FILL : Z := 10.

Definition compute_shading (grid : Grid) : option Grid :=
  for_ (range 7) (λ r grid,
    for_ (range COLS) (λ c grid,
      v ← grid_get grid r c;
      if truthy v then grid_set grid r c COMMITS_FILL else Some grid)
      grid) grid.

(** The module-level statements up to and including the inversion. *)
Definition composite : option Grid :=
  g ← place GHOST 3 grid0;
  g ← trail g;
  g ← place PACMAN_LEFT 41 g;
  invert g.

(** The module-level [grid] once the module body has run. *)
Definition grid : option Grid := composite ≫= compute_shading.

(** ** Date helpers *)

(** [now] is the value [datetime.now()] returns. *)
Definition get_heatmap_start (now : datetime) : option datetime :=
  let today := replace_midnight now in
  let days_since_sunday := (weekday today + 1) `mod` 7 in
  delta ← timedelta_days days_since_sunday;
  current_sunday ← dt_sub today delta;
  weeks ← timedelta_weeks 51;
  dt_sub current_sunday weeks.

Definition col_row_to_date (start : datetime) (col row : Z)
  : option datetime :=
  delta ← timedelta_days (col * 7 + row);
  dt_add start delta.

(** ** Totals of the preview and of the commit driver *)

(** [sum(1 for r in range(7) for c in range(COLS)
         if grid[r][c] == COMMITS_FILL)] *)
Definition lit_fill (grid : Grid) : option Z :=
  for_ (range 7) (λ r acc,
    for_ (range COLS) (λ c acc,
      v ← grid_get grid r c;
      Some (if bool_decide (v = COMMITS_FILL) then acc + 1 else acc))
      acc) 0.

(** [lit_fill * COMMITS_FILL], the total [preview] reports. *)
Definition total_commits (grid : Grid) : option Z :=
  lit ← lit_fill grid; Some (lit * COMMITS_FILL).

(** [sum(grid[r][c] for r in range(7) for c in range(COLS))], the total
    [make_commits] reports. *)
Definition total_needed (grid : Grid) : option Z :=
  for_ (range 7) (λ r acc,
    for_ (range COLS) (λ c acc,
      v ← grid_get grid r c; Some (acc + v)) acc) 0.

(** ** Preview *)

Inductive preview_line :=
  | Preview_title
  | Preview_tens (ruler : string)
  | Preview_ones (ruler : string)
  | Preview_rule
  | Preview_row (label row_str : string)
  | Preview_range (start_str end_str : string)
  | Preview_cells (lit_fill fill : Z)
  | Preview_total (total_commits : Z)
  | Preview_hint.

Definition DAYS : list string :=
  ["Sun"; "Mon"; "Tue"; "Wed"; "Thu"; "Fri"; "Sat"].

(** [row_str] of row [r]. *)
Definition row_str (grid : Grid) (r : nat) : option string :=
  for_ (range COLS) (λ c acc,
    v ← grid_get grid r c;
    Some (acc +:+ (if bool_decide (v = COMMITS_FILL) then "#" else ".")))
    "".

(** The label of row [r]. *)
Definition row_label (r : nat) : option string :=
  if bool_decide (r = 1 ∨ r = 3 ∨ r = 5)%nat
  then day ← getitem DAYS r; Some ("(" +:+ day +:+ ")")
  else Some "      ".

(** ** Commit generator *)

(** What [make_commits] prints, one constructor per [print]. *)
Inductive line :=
  | Start_line (start_str : string)
  | Total_line (total_needed : Z)
  | Error_line (count : Z) (reason : string)
  | Progress_line (count total_needed : Z)
  | Done_line (count errors : Z)
  | Push_line.

Section driver.

(** The repository the [git] child process acts upon, and the child
    process itself: given the call and the repository, the completed
    process and the repository it leaves behind. *)
Context {World : Type}.
Variable run : invocation → World → completed * World.

(** [d.strftime(fmt)] and [s.strip()] of the runtime. *)
Variable strftime : string → datetime → string.
Variable strip : string → string.

(** The state of the running script that [make_commits] and the child
    processes can touch: [os.environ], the repository, the text written
    to standard output and the trace of child processes. *)
Record process := Process {
  environ : gmap string string;
  world : World;
  stdout : list line;
  calls : list (invocation * completed)
}.

Definition print (l : line) (p : process) : process :=
  Process (environ p) (world p) (stdout p ++ [l]) (calls p).

(** [subprocess.run(args, env=env, capture_output=True, text=True)] *)
Definition subprocess_run (args : list string) (env : gmap string string)
    (p : process) : completed * process :=
  let call := Invocation args env in
  let '(result, w) := run call (world p) in
  (result, Process (environ p) w (stdout p) (calls p ++ [(call, result)])).

(** The local variables of [make_commits] that its loops update, with
    the process state. *)
Record frame := Frame {
  proc : process;
  count : Z;
  errors : Z
}.

(** One iteration of the innermost loop. *)
Definition commit_once (env : gmap string string) (f : frame)
  : option frame :=
  let count := count f + 1 in
  let '(result, p) :=
    subprocess_run
      ["git"; "commit"; "--allow-empty"; "-m"; "pixel #" +:+ pretty count]
      env (proc f) in
  if bool_decide (returncode result ≠ 0)
  then Some (Frame (print (Error_line count (strip (stderr result))) p)
                   count (errors f + 1))
  else Some (Frame p count (errors f)).

(** The body of the loop over the rows of one column. *)
Definition commit_cell (grid : Grid) (start : datetime) (total_needed : Z)
    (col row : nat) (f : frame) : option frame :=
  commits_for_cell ← grid_get grid row col;
  if negb (truthy commits_for_cell) then Some f
  else
    date ← col_row_to_date start col row;
    let date_str := strftime "%Y-%m-%dT12:00:00" date in
    let env := <["GIT_COMMITTER_DATE" := date_str]>
                 (<["GIT_AUTHOR_DATE" := date_str]> (environ (proc f))) in
    f ← for_ (rangeZ commits_for_cell) (λ _, commit_once env) f;
    if bool_decide (count f `mod` 200 = 0)
    then Some (Frame (print (Progress_line (count f) total_needed) (proc f))
                     (count f) (errors f))
    else Some f.

(** The nested loop over the cells. *)
Definition commit_loop (grid : Grid) (start : datetime) (total_needed : Z)
    (f : frame) : option frame :=
  for_ (range COLS) (λ col f,
    for_ (range 7) (λ row f,
      commit_cell grid start total_needed col row f) f) f.

Definition make_commits (now : datetime) (grid : Grid) (p : process)
  : option process :=
  start ← get_heatmap_start now;
  total_needed ← total_needed grid;
  let p := print (Start_line (strftime "%Y-%m-%d" start)) p in
  let p := print (Total_line total_needed) p in
  f ← commit_loop grid start total_needed (Frame p 0 0);
  let p := print (Done_line (count f) (errors f)) (proc f) in
  Some (if bool_decide (errors f = 0) then print Push_line p else p).

(** The script run with [--commit]: the module body builds the grid,
    then [make_commits()] runs. *)
Definition commit_mode (now : datetime) (p : process) : option process :=
  g ← grid; make_commits now g p.

(** [preview()], as the lines it prints. *)
Definition preview (now : datetime) (grid : Grid)
  : option (list preview_line) :=
  lit_fill ← lit_fill grid;
  let total_commits := lit_fill * COMMITS_FILL in
  let tens := foldr (λ c acc,
      (if bool_decide (c `mod` 10 = 0) then pretty (c `div` 10) else " ")
      +:+ acc) "" (Z.of_nat <$> range COLS) in
  let ones := foldr (λ c acc, pretty (c `mod` 10) +:+ acc) ""
      (Z.of_nat <$> range COLS) in
  rows ← for_ (range 7) (λ r acc,
      row_str ← row_str grid r;
      label ← row_label r;
      Some (acc ++ [Preview_row label row_str])) [];
  start ← get_heatmap_start now;
  end_ ← col_row_to_date start (COLS - 1)%nat 6;
  Some ([Preview_title; Preview_tens tens; Preview_ones ones; Preview_rule]
        ++ rows
        ++ [Preview_rule;
            Preview_range (strftime "%Y-%m-%d" start)
                          (strftime "%Y-%m-%d" end_);
            Preview_cells lit_fill COMMITS_FILL;
            Preview_total total_commits;
            Preview_hint]).

End driver.

Arguments process : clear implicits.
Arguments frame : clear implicits.

(** ** Notions used to state the properties *)

(** The shape of the grid. *)
Definition wf_grid (g : Grid) : Prop :=
  length g = ROWS ∧ Forall (λ row, length row = COLS) g.

(** Cell [(r, c)] of a grid, for natural coordinates. *)
Definition cell (g : Grid) (r c : nat) : option Z := row ← g !! r; row !! c.

(** A grid as the shading phase leaves it. *)
Definition shaded (g : Grid) : Prop :=
  Forall (Forall (λ v, v = 0 ∨ v = COMMITS_FILL)) g.

(** The value the shading phase leaves in a cell that held [v]. *)
Definition shade_value (v : Z) : Z := if truthy v then COMMITS_FILL else 0.

(** The value [place] stores for a sprite pixel. *)
Definition binary (val : Z) : Z := if truthy val then 1 else 0.

(** Pixel [(r, j)] of a sprite, for a signed column offset [j]. *)
Definition sprite_px (sprite : Sprite) (r : nat) (j : Z) : option Z :=
  if bool_decide (0 ≤ j) then row ← sprite !! r; row !! Z.to_nat j else None.


(** The value of a cell, 0 where the grid has none. *)
Definition cellv (g : Grid) (r c : nat) : Z := default 0 (cell g r c).

(** 1 for a cell holding [COMMITS_FILL], 0 for any other. *)
Definition is_fill (v : Z) : Z :=
  if bool_decide (v = COMMITS_FILL) then 1 else 0.

(** Sum of [f] over a list of indices. *)
Definition sumZ (f : nat → Z) (xs : list nat) : Z :=
  foldr (λ x acc, f x + acc) 0 xs.

(** The traversal order of the cells, as [(col, row)] pairs: all rows of
    column 0, then all rows of column 1, and so on. *)
Definition cells_in_order : list (nat * nat) :=
  col ← range COLS; (col,.) <$> range 7.

(** Position of one cell before another in that enumeration. *)
Definition cell_before (a b : nat * nat) : Prop :=
  (a.1 < b.1)%nat ∨ (a.1 = b.1 ∧ (a.2 < b.2)%nat).

(** [s] is the most recent Sunday (at midnight) on or before [today]. *)
Definition most_recent_sunday (s today : datetime) : Prop :=
  weekday s = SUNDAY ∧ micros s = micros today
  ∧ ordinal s ≤ ordinal today < ordinal s + 7.

(** The clock readings for which no date of the heat map leaves the
    representable range: 0001-12-30 to 9999-12-25. *)
Definition clock_ok (now : datetime) : Prop :=
  364 ≤ ordinal now ≤ MAXORDINAL - 6.

(** *** Notions about a run of the commit driver *)

(** Number of child processes of a trace that returned a non-zero
    status, and number that returned zero. *)
Definition failures (new : list (invocation * completed)) : Z :=
  length (filter (λ c, returncode c.2 ≠ 0) new).

Definition successes (new : list (invocation * completed)) : Z :=
  length (filter (λ c, returncode c.2 = 0) new).

Definition is_error (l : line) : Prop := ∃ c r, l = Error_line c r.

(** The lines the loop over the cells prints. *)
Definition is_loop_line (l : line) : Prop :=
  is_error l ∨ ∃ c t, l = Progress_line c t.

(** The progress lines among printed lines, as [(count, total)] pairs. *)
Definition progress_of (out : list line) : list (Z * Z) :=
  omap (λ l, match l with
             | Progress_line c t => Some (c, t)
             | _ => None
             end) out.

(** The multiples of 200 in the interval [(lo, hi]], each paired with
    [total]. *)
Definition progress_marks (lo hi total : Z) : list (Z * Z) :=
  (λ k, (200 * k, total)) <$>
    seqZ (lo `div` 200 + 1) (hi `div` 200 - lo `div` 200).

(** The environment [make_commits] builds for the cell [(col, row)]:
    the inherited one extended with the two date variables. *)
Definition cell_env (strftime : string → datetime → string)
    (environ : gmap string string) (start : datetime) (col row : nat)
  : option (gmap string string) :=
  date ← col_row_to_date start col row;
  let date_str := strftime "%Y-%m-%dT12:00:00" date in
  Some (<["GIT_COMMITTER_DATE" := date_str]>
          (<["GIT_AUTHOR_DATE" := date_str]> environ)).

(** The number of commits the cells of a list ask for. *)
Definition weight (g : Grid) (cs : list (nat * nat)) : Z :=
  foldr (λ '(col, row) acc, Z.max 0 (cellv g row col) + acc) 0 cs.

(** What a stretch of the driver did between two frames: the child
    processes [new] it ran and the lines [out] it printed; the two
    counters follow the trace and [os.environ] is as before. *)
Definition run_rel {World} (f f' : frame World)
    (new : list (invocation * completed)) (out : list line) : Prop :=
  calls (proc f') = calls (proc f) ++ new
  ∧ stdout (proc f') = stdout (proc f) ++ out
  ∧ count f' = count f + length new
  ∧ errors f' = errors f + failures new
  ∧ environ (proc f') = environ (proc f).

(** The cells a loop may visit: inside the grid, and with a
    representable date wherever commits are due. *)
Definition visitable (g : Grid) (start : datetime) (cs : list (nat * nat))
  : Prop :=
  Forall (λ '(col, row),
    (col < COLS)%nat ∧ (row < ROWS)%nat
    ∧ (cellv g row col ≠ 0 → is_Some (col_row_to_date start col row))) cs.

(** The [n]-th successful child process of a trace is its [c]-th one,
    counting from 1. *)
Definition nth_success_at (new : list (invocation * completed))
    (n c : nat) : Prop :=
  (0 < c)%nat
  ∧ (∃ call, new !! (c - 1)%nat = Some call ∧ returncode call.2 = 0)
  ∧ successes (take c new) = n.

(** "A progress line is printed at every 200th successful commit".  A
    progress line shows the number of child processes run so far, so
    the line printed once the [c]-th child process has returned is the
    one showing [c]. *)
Definition progress_at_every_200th_success
    (new : list (invocation * completed)) (out : list line) : Prop :=
  ∀ k c : nat, (0 < k)%nat → nth_success_at new (200 * k) c →
    ∃ t, (Z.of_nat c, t) ∈ progress_of out.

(** The grids whose cells are all non-negative. *)
Definition nonneg (g : Grid) : Prop := Forall (Forall (λ v, 0 ≤ v)) g.

(** *** Notions about the grid phases *)

(** A grid of zeros and ones, as the compositor keeps it. *)
Definition binary_grid (g : Grid) : Prop :=
  Forall (Forall (λ v, v = 0 ∨ v = 1)) g.

(** The cells of the dotted trail: row 3, odd columns from 11 to 39. *)
Definition on_trail (r c : nat) : Prop :=
  r = 3%nat ∧ (11 ≤ c ≤ 39)%nat ∧ (c `mod` 2 = 1)%nat.

(** *** Notions about dates *)

(** [days_since_sunday] of [get_heatmap_start], for a day. *)
Definition days_since_sunday (d : datetime) : Z := (weekday d + 1) `mod` 7.

(** *** Notions about the trace of child processes *)

(** The argument vector of the commit numbered [count]. *)
Definition commit_argv (count : Z) : list string :=
  ["git"; "commit"; "--allow-empty"; "-m"; "pixel #" +:+ pretty count].

(** Running a list of calls one after the other on a repository: the
    results, and the repository left behind. *)
Fixpoint replay {World} (run : invocation → World → completed * World)
    (cs : list invocation) (w : World) : list completed * World :=
  match cs with
  | [] => ([], w)
  | c :: rest =>
      let '(r, w1) := run c w in
      let '(rs, w2) := replay run rest w1 in
      (r :: rs, w2)
  end.

(** The error lines among printed lines, as [(count, reason)] pairs. *)
Definition errors_of (out : list line) : list (Z * string) :=
  omap (λ l, match l with
             | Error_line c r => Some (c, r)
             | _ => None
             end) out.

(** The error reports due for a trace whose first call is numbered
    [count + 1]: one per failed call, with its number and its stripped
    standard error. *)
Fixpoint expected_errors (strip : string → string) (count : Z)
    (new : list (invocation * completed)) : list (Z * string) :=
  match new with
  | [] => []
  | (_, result) :: rest =>
      (if bool_decide (returncode result ≠ 0)
       then [(count + 1, strip (stderr result))] else [])
      ++ expected_errors strip (count + 1) rest
  end.

(** The date of a cell, by plain day arithmetic. *)
Definition date_of (start : datetime) (col row : nat) : datetime :=
  Datetime (ordinal start + (col * 7 + row)) (micros start).

(** The environment carrying the timestamp of a date. *)
Definition env_for (strftime : string → datetime → string)
    (environ : gmap string string) (d : datetime) : gmap string string :=
  let date_str := strftime "%Y-%m-%dT12:00:00" d in
  <["GIT_COMMITTER_DATE" := date_str]>
    (<["GIT_AUTHOR_DATE" := date_str]> environ).

(** The dates of the commits the cells of a list ask for: each cell's
    date, as many times as the cell's weight. *)
Definition planned_dates (g : Grid) (start : datetime)
    (cs : list (nat * nat)) : list datetime :=
  x ← cs; replicate (Z.to_nat (cellv g x.2 x.1)) (date_of start x.1 x.2).

(** The child processes a run asks for, fixed before any of them is
    run: one per planned date, numbered from 1 in that order, with the
    environment carrying the timestamp of its date. *)
Definition planned_calls (strftime : string → datetime → string)
    (environ : gmap string string) (g : Grid) (start : datetime)
    : list invocation :=
  imap (λ (k : nat) d,
          Invocation (commit_argv (1 + k)) (env_for strftime environ d))
       (planned_dates g start cells_in_order).

(** What a stretch of the driver did, call by call: the results in the
    trace are those of the child processes run in order on the
    repository, the commits are numbered on from the counter, and the
    error lines printed are those of the failed calls. *)
Definition trace_rel {World} (run : invocation → World → completed * World)
    (strip : string → string) (f f' : frame World)
    (new : list (invocation * completed)) (out : list line) : Prop :=
  replay run (fst <$> new) (world (proc f))
    = (snd <$> new, world (proc f'))
  ∧ argv <$> (fst <$> new)
    = (λ i : nat, commit_argv (count f + 1 + i)) <$> seq 0 (length new)
  ∧ errors_of out = expected_errors strip (count f) new.

(** *** Notions about the preview *)

(** The glyph [preview] draws for a cell. *)
Definition glyph (v : Z) : string :=
  if bool_decide (v = COMMITS_FILL) then "#" else ".".

(** A row of cells drawn glyph by glyph, left to right. *)
Definition render (row : list Z) : string :=
  foldr (λ v s, glyph v +:+ s) "" row.

(** The labels of the seven rows. *)
Definition ROW_LABELS : list string :=
  ["      "; "(Mon)"; "      "; "(Wed)"; "      "; "(Fri)"; "      "].

(** *** More concrete data for the examples *)

(** The ghost with an eighth row. *)
Definition TALL_SPRITE : Sprite := GHOST ++ [[1; 1; 1; 1; 1; 1; 1]].

(** A clock reading in the spring of year 1: 0001-04-10. *)
Definition early_now : datetime := Datetime 100 0.

(** The start date for [sample_now]: 2025-11-09, a Sunday. *)
Definition sample_start : datetime := Datetime 739564 0.

(** ** Concrete data for the examples *)

(** The module-level grid as a value (its construction raises nothing). *)
Definition final_grid : Grid := default grid0 grid.

(** A clock reading: 2026-11-04, at noon. *)
Definition sample_now : datetime := Datetime 739924 43200000000.

(** A stand-in for [strftime]: the format followed by the day number. *)
Definition sample_strftime : string → datetime → string :=
  λ fmt d, fmt +:+ " " +:+ pretty (ordinal d).

(** A repository that counts the child processes it has served, with a
    [git] whose first call fails and whose later calls all succeed. *)
Definition fail_first : invocation → nat → completed * nat :=
  λ _ n, (Completed (if bool_decide (n = 0)%nat then 1 else 0) "", S n).

Definition sample_process : process nat :=
  Process {["HOME" := "/root"]} 0%nat [] [].

(** The two loop bodies of [place], named. *)
Definition place_cell (start_col : Z) (r : nat)
  : nat * Z → Grid → option Grid :=
  λ '(c, val) grid,
    let col := start_col + c in
    if bool_decide (col < COLS)
    then grid_set grid r col (if truthy val then 1 else 0)
    else Some grid.

Definition place_row (start_col : Z) : nat * list Z → Grid → option Grid :=
  λ '(r, row) grid, for_ (enumerate row) (place_cell start_col r) grid.

(** * Part II: properties *)

(** ** Basic facts about subscripts and loops *)

Section runtime_facts.
Context {A : Type}.
Implicit Types (l : list A) (k : nat).

Lemma index_nat len k : (k < len)%nat → index len k = Some k.
Proof.
  intros Hk. unfold index.
  rewrite bool_decide_eq_true_2 by lia. by rewrite Nat2Z.id.
Qed.

Lemma index_nat_ge len k : (len ≤ k)%nat → index len k = None.
Proof.
  intros Hk. unfold index.
  rewrite !bool_decide_eq_false_2 by lia. done.
Qed.

Lemma getitem_nat l k : getitem l k = l !! k.
Proof.
  unfold getitem. destruct (decide (k < length l)%nat).
  - by rewrite index_nat.
  - rewrite index_nat_ge by lia. symmetry. apply lookup_ge_None. lia.
Qed.

Lemma setitem_nat l k v :
  (k < length l)%nat → setitem l k v = Some (<[k := v]> l).
Proof. intros Hk. unfold setitem. by rewrite index_nat. Qed.

End runtime_facts.

Lemma for_app {I S} (xs ys : list I) (body : I → S → option S) s :
  for_ (xs ++ ys) body s = for_ xs body s ≫= for_ ys body.
Proof.
  revert s. induction xs as [|x xs IH]; intros s; simpl; [done|].
  destruct (body x s); simpl; auto.
Qed.

Lemma for_ext {I S} (xs : list I) (f g : I → S → option S) s :
  (∀ x t, x ∈ xs → f x t = g x t) → for_ xs f s = for_ xs g s.
Proof.
  revert s. induction xs as [|x xs IH]; intros s Hfg; simpl; [done|].
  rewrite Hfg by left. destruct (g x s); simpl; [|done].
  apply IH. intros; apply Hfg. by right.
Qed.

(** A nested loop is one loop over the concatenated iteration space. *)
Lemma for_nested {I J S} (xs : list I) (inner : I → list J)
    (body : I → J → S → option S) s :
  for_ xs (λ x t, for_ (inner x) (body x) t) s
  = for_ (x ← xs; (x,.) <$> inner x) (λ '(x, y), body x y) s.
Proof.
  revert s. induction xs as [|x xs IH]; intros s; simpl; [done|].
  rewrite for_app.
  assert (Hin : ∀ t, for_ ((x,.) <$> inner x) (λ '(x, y), body x y) t
                     = for_ (inner x) (body x) t).
  { generalize (inner x). intros ys. induction ys as [|y ys IHy];
      intros t; simpl; [done|]. destruct (body x y t); simpl; auto. }
  rewrite Hin. destruct (for_ (inner x) (body x) s); simpl; auto.
Qed.

(** A loop that never raises and maintains an invariant indexed by the
    part of the iteration space already processed. *)
Lemma for_total_invariant {I S} (P : list I → S → Prop) xs
    (body : I → S → option S) s :
  P [] s →
  (∀ pre x t, pre ++ [x] `prefix_of` xs → P pre t →
     ∃ t', body x t = Some t' ∧ P (pre ++ [x]) t') →
  ∃ s', for_ xs body s = Some s' ∧ P xs s'.
Proof.
  intros H0 Hstep.
  cut (∀ todo done t, done ++ todo = xs → P done t →
         ∃ s', for_ todo body t = Some s' ∧ P xs s').
  { intros Hcut. by apply (Hcut xs [] s). }
  induction todo as [|x todo IH]; intros done t Hxs HP; simpl.
  - rewrite app_nil_r in Hxs. subst. by exists t.
  - destruct (Hstep done x t) as (t' & -> & HP'); [|done|].
    { exists todo. by rewrite <-app_assoc. }
    simpl. apply (IH (done ++ [x])); [by rewrite <-app_assoc|done].
Qed.

Lemma bind_Some_eq {A B} (x : A) (k : A → option B) : Some x ≫= k = k x.
Proof. done. Qed.

Lemma for_is_Some {I S} (xs : list I) (body : I → S → option S) s :
  (∀ x t, x ∈ xs → is_Some (body x t)) → is_Some (for_ xs body s).
Proof.
  revert s. induction xs as [|x xs IH]; intros s Hbody; simpl; [done|].
  destruct (Hbody x s) as [t ->]; [left|]. simpl.
  apply IH. intros; apply Hbody. by right.
Qed.

(** ** Well-formed grids and cell access *)

Lemma grid_get_nat (g : Grid) (r c : nat) : grid_get g r c = cell g r c.
Proof.
  unfold grid_get, cell. rewrite getitem_nat.
  destruct (g !! r); simpl; [apply getitem_nat|done].
Qed.

Lemma wf_row (g : Grid) r row :
  wf_grid g → g !! r = Some row → length row = COLS ∧ (r < ROWS)%nat.
Proof.
  intros [Hlen Hall] Hr. split.
  - by apply (Forall_lookup_1 _ _ _ _ Hall Hr).
  - rewrite <-Hlen. by eapply lookup_lt_Some.
Qed.

Lemma wf_cell (g : Grid) (r c : nat) :
  wf_grid g → (r < ROWS)%nat → (c < COLS)%nat → is_Some (cell g r c).
Proof.
  intros Hwf Hr Hc. unfold cell.
  destruct (lookup_lt_is_Some_2 g r) as [row Hrow]; [by rewrite (proj1 Hwf)|].
  rewrite Hrow. simpl. apply lookup_lt_is_Some_2.
  by rewrite (proj1 (wf_row _ _ _ Hwf Hrow)).
Qed.

Lemma grid_set_nat (g : Grid) (r c : nat) v row :
  g !! r = Some row → (c < length row)%nat →
  grid_set g r c v = Some (<[r := <[c := v]> row]> g).
Proof.
  intros Hr Hc. unfold grid_set. rewrite getitem_nat, Hr. simpl.
  rewrite setitem_nat by done. simpl.
  apply setitem_nat. by eapply lookup_lt_Some.
Qed.

Lemma wf_insert_row (g : Grid) r row :
  wf_grid g → length row = COLS → wf_grid (<[r := row]> g).
Proof.
  intros [Hlen Hall] Hrow. split; [by rewrite length_insert|].
  by apply Forall_insert.
Qed.

Lemma cell_insert_row (g : Grid) r row r' c' :
  (r < length g)%nat →
  cell (<[r := row]> g) r' c' = if decide (r' = r) then row !! c' else cell g r' c'.
Proof.
  intros Hr. unfold cell. case_decide as Heq.
  - subst. by rewrite list_lookup_insert_eq.
  - by rewrite list_lookup_insert_ne.
Qed.

Lemma grid_set_Z (g : Grid) (r : nat) (c : Z) v row :
  g !! r = Some row → 0 ≤ c < length row →
  grid_set g r c v = Some (<[r := <[Z.to_nat c := v]> row]> g).
Proof.
  intros Hr Hc. rewrite <-(Z2Nat.id c) at 1 by lia.
  apply grid_set_nat; [done|lia].
Qed.

(** ** Sprite placement *)

Lemma place_unfold sprite start_col g :
  place sprite start_col g = for_ (enumerate sprite) (place_row start_col) g.
Proof.
  unfold place. apply for_ext. intros [r row] t _. simpl.
  apply for_ext. by intros [c val] u _.
Qed.

Lemma place_cells_spec (r : nat) (start : Z) (row : list Z) :
  ∀ (k : nat) (g : Grid),
  wf_grid g → (r < ROWS)%nat → 0 ≤ start →
  ∃ g', for_ (zip (seq k (length row)) row) (place_cell start r) g = Some g'
      ∧ wf_grid g'
      ∧ ∀ r' c' : nat, cell g' r' c' =
          if decide (r' = r ∧ (c' < COLS)%nat ∧ start + k ≤ c')
          then match row !! Z.to_nat (c' - start - k) with
               | Some v => Some (binary v)
               | None => cell g r' c'
               end
          else cell g r' c'.
Proof.
  induction row as [|val rest IH]; intros k g Hwf Hr Hstart.
  - exists g. split_and!; try done. intros. destruct (decide _); [|done]. by rewrite ?lookup_nil.
  - cbn [length seq zip zip_with for_ place_cell].
    destruct (lookup_lt_is_Some_2 g r) as [gr Hgr]; [by rewrite (proj1 Hwf)|].
    destruct (wf_row _ _ _ Hwf Hgr) as [Hlen _].
    case_bool_decide as Hcol.
    + rewrite (grid_set_Z g r (start + k) _ gr) by (done || lia). simpl.
      set (g1 := <[r := _]> g).
      assert (Hwf1 : wf_grid g1).
      { apply wf_insert_row; [done|]. by rewrite length_insert. }
      destruct (IH (S k) g1 Hwf1 Hr Hstart) as (g' & Hrun & Hwf' & Hcell).
      exists g'. split_and!; try done.
      intros r' c'. rewrite Hcell. unfold g1.
      rewrite cell_insert_row by (rewrite (proj1 Hwf); done).
      destruct (decide (r' = r)) as [->|Hne].
      * destruct (decide (c' = Z.to_nat (start + k))) as [->|Hc'].
        -- rewrite decide_False by lia. rewrite decide_True by lia.
           replace (Z.to_nat (Z.to_nat (start + k) - start - k)) with 0%nat by lia.
           simpl. rewrite list_lookup_insert_eq by lia. done.
        -- rewrite list_lookup_insert_ne by done.
           replace (gr !! c') with (cell g r c')
             by (unfold cell; by rewrite Hgr).
           destruct (decide (start + k ≤ c')) as [Hle|Hgt].
           ++ destruct (decide (c' < COLS)%nat).
              ** rewrite !decide_True by lia.
                 replace (Z.to_nat (c' - start - k))
                   with (S (Z.to_nat (c' - start - S k))) by lia.
                 reflexivity.
              ** by rewrite !decide_False by lia.
           ++ by rewrite !decide_False by lia.
      * by rewrite !decide_False by (intros [? _]; done).
    + simpl. destruct (IH (S k) g Hwf Hr Hstart) as (g' & Hrun & Hwf' & Hcell).
      exists g'. split_and!; try done.
      intros r' c'. rewrite Hcell.
      by rewrite !decide_False by lia.
Qed.

Lemma place_rows_spec (start : Z) (sprite : Sprite) :
  ∀ (k : nat) (g : Grid),
  wf_grid g → 0 ≤ start → (k + length sprite ≤ ROWS)%nat →
  ∃ g', for_ (zip (seq k (length sprite)) sprite) (place_row start) g = Some g'
      ∧ wf_grid g'
      ∧ ∀ r' c' : nat, cell g' r' c' =
          if decide ((k ≤ r')%nat ∧ (c' < COLS)%nat ∧ start ≤ c')
          then match sprite !! (r' - k)%nat ≫= (.!! Z.to_nat (c' - start)) with
               | Some v => Some (binary v)
               | None => cell g r' c'
               end
          else cell g r' c'.
Proof.
  induction sprite as [|row rest IH]; intros k g Hwf Hstart Hk.
  - exists g. split_and!; try done. intros. destruct (decide _); [|done]. by rewrite ?lookup_nil.
  - cbn [length seq zip zip_with for_ place_row] in *. unfold enumerate.
    destruct (place_cells_spec k start row 0 g) as (g1 & -> & Hwf1 & Hc1);
      [done|lia|done|]. simpl.
    destruct (IH (S k) g1) as (g' & Hrun & Hwf' & Hcell); [done|done|lia|].
    exists g'. split_and!; try done.
    intros r' c'. rewrite Hcell, Hc1.
    destruct (decide (r' = k)) as [->|Hne].
    + rewrite (decide_False (P := (S k ≤ k)%nat ∧ _)) by lia.
      replace (k - k)%nat with 0%nat by lia. simpl.
      destruct (decide ((c' < COLS)%nat ∧ start ≤ c')).
      * rewrite !decide_True by lia.
        by replace (c' - start - 0%nat) with (c' - start) by lia.
      * by rewrite !decide_False by lia.
    + rewrite (decide_False (P := r' = k ∧ _)) by (intros [? _]; done).
      destruct (decide ((S k ≤ r')%nat ∧ (c' < COLS)%nat ∧ start ≤ c')).
      * rewrite decide_True by lia.
        by replace (r' - k)%nat with (S (r' - S k)) by lia.
      * by rewrite !decide_False by lia.
Qed.

(** The effect of [place] on a well-formed grid, cell by cell. *)
Lemma place_spec (sprite : Sprite) (start : Z) (g : Grid) :
  wf_grid g → 0 ≤ start → (length sprite ≤ ROWS)%nat →
  ∃ g', place sprite start g = Some g'
      ∧ wf_grid g'
      ∧ ∀ r c : nat, (c < COLS)%nat →
          cell g' r c = match sprite_px sprite r (c - start) with
                        | Some v => Some (binary v)
                        | None => cell g r c
                        end.
Proof.
  intros Hwf Hstart Hlen. rewrite place_unfold.
  destruct (place_rows_spec start sprite 0 g) as (g' & Hrun & Hwf' & Hcell);
    [done|done|lia|].
  exists g'. split_and!; try done.
  intros r c Hc. rewrite Hcell. unfold sprite_px.
  rewrite Nat.sub_0_r. case_bool_decide.
  - by rewrite decide_True by lia.
  - by rewrite decide_False by lia.
Qed.

(** Two well-formed grids with the same cells are the same grid. *)
Lemma grid_ext (g1 g2 : Grid) :
  wf_grid g1 → wf_grid g2 →
  (∀ r c : nat, (c < COLS)%nat → cell g1 r c = cell g2 r c) → g1 = g2.
Proof.
  intros Hwf1 Hwf2 Hcell. apply list_eq. intros r.
  destruct (g1 !! r) as [row1|] eqn:H1, (g2 !! r) as [row2|] eqn:H2.
  - f_equal. apply list_eq. intros c.
    destruct (wf_row _ _ _ Hwf1 H1) as [Hl1 _].
    destruct (wf_row _ _ _ Hwf2 H2) as [Hl2 _].
    destruct (decide (c < COLS)%nat) as [Hc|Hc].
    + specialize (Hcell r c Hc). unfold cell in Hcell.
      by rewrite H1, H2 in Hcell.
    + rewrite !lookup_ge_None_2 by lia. done.
  - apply lookup_lt_Some in H1. apply lookup_ge_None in H2.
    destruct Hwf1 as [? _], Hwf2 as [? _]. lia.
  - apply lookup_lt_Some in H2. apply lookup_ge_None in H1.
    destruct Hwf1 as [? _], Hwf2 as [? _]. lia.
  - done.
Qed.

Lemma sprite_px_take (sprite : Sprite) (n r : nat) (j : Z) :
  sprite_px (take n <$> sprite) r j
  = if decide (j < n) then sprite_px sprite r j else None.
Proof.
  unfold sprite_px. case_bool_decide as Hj.
  - rewrite list_lookup_fmap. destruct (sprite !! r) as [row|]; simpl.
    + case_decide.
      * apply lookup_take_lt. lia.
      * apply lookup_take_ge. lia.
    + by case_decide.
  - by case_decide.
Qed.

Lemma sprite_px_outside (sprite : Sprite) (w r : nat) (j : Z) :
  Forall (λ row, length row = w) sprite →
  ¬ ((r < length sprite)%nat ∧ 0 ≤ j < w) → sprite_px sprite r j = None.
Proof.
  intros Hall Hout. unfold sprite_px. case_bool_decide; [|done].
  destruct (sprite !! r) as [row|] eqn:Hrow; [|done]. simpl.
  apply lookup_ge_None.
  rewrite (Forall_lookup_1 _ _ _ _ Hall Hrow).
  apply lookup_lt_Some in Hrow. lia.
Qed.

Lemma sprite_px_inside (sprite : Sprite) (w r : nat) (j : Z) :
  Forall (λ row, length row = w) sprite →
  (r < length sprite)%nat → 0 ≤ j < w → is_Some (sprite_px sprite r j).
Proof.
  intros Hall Hr Hj. unfold sprite_px.
  rewrite bool_decide_eq_true_2 by lia.
  destruct (lookup_lt_is_Some_2 sprite r) as [row Hrow]; [lia|].
  rewrite Hrow. simpl. apply lookup_lt_is_Some_2.
  rewrite (Forall_lookup_1 _ _ _ _ Hall Hrow). lia.
Qed.


(** ** Clipping and framing of [place] *)

(** C6. A sprite of width [w] placed at a non-negative offset with
    [offset + w > 52]: the call returns normally, the grid keeps its
    shape, the result is that of placing the sprite cut down to the
    columns that fit, every cell at or right of the offset under a sprite
    row holds that row's pixel, and every other cell (in particular the
    columns left of the offset, where a wrapped write would land) is
    untouched. *)
Theorem place_clips (sprite : Sprite) (w : nat) (offset : Z) (g : Grid) :
  wf_grid g →
  (length sprite ≤ ROWS)%nat →
  Forall (λ row, length row = w) sprite →
  0 ≤ offset →
  offset + w > COLS →
  ∃ g', place sprite offset g = Some g'
      ∧ wf_grid g'
      ∧ place (take (Z.to_nat (COLS - offset)) <$> sprite) offset g = Some g'
      ∧ ∀ r c : nat, (r < ROWS)%nat → (c < COLS)%nat →
          if decide ((r < length sprite)%nat ∧ offset ≤ c)
          then ∃ val, sprite_px sprite r (c - offset) = Some val
                    ∧ cell g' r c = Some (if truthy val then 1 else 0)
          else cell g' r c = cell g r c.
Proof.
  intros Hwf Hlen Hw Hoff Hover.
  destruct (place_spec sprite offset g) as (g' & Hrun & Hwf' & Hcell);
    [done..|].
  destruct (place_spec (take (Z.to_nat (COLS - offset)) <$> sprite) offset g)
    as (g'' & Hrun' & Hwf'' & Hcell'); [done|done|by rewrite length_fmap|].
  exists g'. split_and!; try done.
  - rewrite Hrun'. f_equal. apply grid_ext; [done..|].
    intros r c Hc. rewrite Hcell, Hcell' by done.
    rewrite sprite_px_take. by rewrite decide_True by lia.
  - intros r c Hr Hc. rewrite Hcell by done. case_decide as Hin.
    + destruct (sprite_px_inside sprite w r (c - offset)) as [val Hval];
        [done|lia|lia|].
      exists val. by rewrite Hval.
    + rewrite (sprite_px_outside sprite w) by (done || lia). done.
Qed.


(** ** Date helpers *)

Lemma timedelta_days_small n :
  - MAX_DELTA_DAYS ≤ n ≤ MAX_DELTA_DAYS → timedelta_days n = Some n.
Proof. intros Hn. unfold timedelta_days. by rewrite bool_decide_eq_true_2. Qed.

Lemma dt_add_Some d delta d' :
  dt_add d delta = Some d' ↔
  d' = Datetime (ordinal d + delta) (micros d)
  ∧ MINORDINAL ≤ ordinal d + delta ≤ MAXORDINAL.
Proof.
  unfold dt_add. simpl. case_bool_decide; split; intros H'.
  - by simplify_eq.
  - by destruct H' as [-> _].
  - done.
  - by destruct H'.
Qed.

Lemma timedelta_days_Some n delta :
  timedelta_days n = Some delta → delta = n.
Proof. unfold timedelta_days. case_bool_decide; congruence. Qed.

Lemma col_row_to_date_Some start col row d :
  col_row_to_date start col row = Some d →
  ordinal d = ordinal start + (col * 7 + row) ∧ micros d = micros start.
Proof.
  unfold col_row_to_date. intros Hd.
  destruct (timedelta_days _) as [delta|] eqn:Hdelta; simpl in Hd; [|done].
  apply timedelta_days_Some in Hdelta as ->.
  apply dt_add_Some in Hd as [-> _]. done.
Qed.

Lemma col_row_to_date_total start col row :
  MINORDINAL ≤ ordinal start ≤ MAXORDINAL →
  0 ≤ col * 7 + row →
  ordinal start + (col * 7 + row) ≤ MAXORDINAL →
  is_Some (col_row_to_date start col row).
Proof.
  unfold MINORDINAL, MAXORDINAL. intros Hs H0 Hmax. unfold col_row_to_date.
  rewrite timedelta_days_small by (unfold MAX_DELTA_DAYS; lia). simpl.
  unfold dt_add. rewrite bool_decide_eq_true_2; [done|].
  unfold MINORDINAL, MAXORDINAL. lia.
Qed.

Lemma days_since_sunday_eq o : ((o + 6) `mod` 7 + 1) `mod` 7 = o `mod` 7.
Proof.
  rewrite Zplus_mod_idemp_l. replace (o + 6 + 1) with (o + 1 * 7) by lia.
  apply Z_mod_plus_full.
Qed.

(** What [get_heatmap_start] computes, and when it returns. *)
Lemma get_heatmap_start_Some now start :
  get_heatmap_start now = Some start →
  start = Datetime (ordinal now - ordinal now `mod` 7 - 357) 0
  ∧ 364 ≤ ordinal now
  ∧ ordinal now - ordinal now `mod` 7 ≤ MAXORDINAL.
Proof.
  unfold get_heatmap_start, weekday, replace_midnight, timedelta_weeks.
  simpl. rewrite days_since_sunday_eq.
  pose proof (Z.mod_pos_bound (ordinal now) 7 ltac:(lia)) as Hmod.
  pose proof (Z.div_mod (ordinal now) 7 ltac:(lia)) as Hdiv.
  rewrite !timedelta_days_small by (unfold MAX_DELTA_DAYS; lia). simpl.
  unfold dt_sub, dt_add, MINORDINAL, MAXORDINAL. simpl.
  intros H'.
  case_bool_decide as H1; simpl in H'; [|done].
  case_bool_decide as H2; simpl in H'; [|done].
  injection H' as <-. split_and!; [f_equal; lia | lia | lia].
Qed.

Lemma get_heatmap_start_total now :
  364 ≤ ordinal now ≤ MAXORDINAL →
  get_heatmap_start now
  = Some (Datetime (ordinal now - ordinal now `mod` 7 - 357) 0).
Proof.
  unfold get_heatmap_start, weekday, replace_midnight, timedelta_weeks.
  simpl. rewrite days_since_sunday_eq.
  pose proof (Z.mod_pos_bound (ordinal now) 7 ltac:(lia)) as Hmod.
  pose proof (Z.div_mod (ordinal now) 7 ltac:(lia)) as Hdiv.
  rewrite !timedelta_days_small by (unfold MAX_DELTA_DAYS; lia). simpl.
  unfold dt_sub, dt_add, MINORDINAL, MAXORDINAL. simpl.
  intros Hrange.
  rewrite bool_decide_eq_true_2 by lia. simpl.
  rewrite bool_decide_eq_true_2 by lia. done.
Qed.

Lemma sunday_ordinal o : (o - o `mod` 7 + 6) `mod` 7 = 6.
Proof.
  pose proof (Z.div_mod o 7 ltac:(lia)) as Hdiv.
  replace (o - o `mod` 7 + 6) with (6 + o `div` 7 * 7) by lia.
  by rewrite Z_mod_plus_full.
Qed.

(** C5. Whatever the clock reads, a date returned by
    [get_heatmap_start] is a Sunday ([weekday] 6 in the runtime's
    numbering); and a date is returned for every clock reading from
    0001-12-30 on. *)
Theorem heatmap_start_is_sunday (now : datetime) :
  (∀ start, get_heatmap_start now = Some start → weekday start = SUNDAY)
  ∧ (364 ≤ ordinal now ≤ MAXORDINAL → is_Some (get_heatmap_start now)).
Proof.
  split.
  - intros start Hs. apply get_heatmap_start_Some in Hs as (-> & _ & _).
    unfold weekday, SUNDAY. simpl.
    replace (ordinal now - ordinal now `mod` 7 - 357 + 6)
      with (ordinal now - ordinal now `mod` 7 + 6 + (-51) * 7) by lia.
    rewrite Z_mod_plus_full. apply sunday_ordinal.
  - intros Hnow. by rewrite get_heatmap_start_total.
Qed.

(** C4. Whatever the clock reads, a date returned by
    [get_heatmap_start] is the most recent Sunday on or before today
    (today at midnight) minus exactly 357 days, and the date of the last
    cell, column 51 and row 6, is then today or later.  Both dates are
    produced for every clock reading from 0001-12-30 to 9999-12-25. *)
Theorem heatmap_start_anchor (now : datetime) :
  (clock_ok now →
     ∃ start e, get_heatmap_start now = Some start
              ∧ col_row_to_date start 51 6 = Some e)
  ∧ (∀ start, get_heatmap_start now = Some start →
       ∃ sunday,
         most_recent_sunday sunday (replace_midnight now)
         ∧ dt_sub sunday 357 = Some start
         ∧ ∀ e, col_row_to_date start 51 6 = Some e →
                dt_le (replace_midnight now) e).
Proof.
  pose proof (Z.mod_pos_bound (ordinal now) 7 ltac:(lia)) as Hmod.
  split.
  - intros [Hlo Hhi]. unfold MAXORDINAL in *.
    rewrite get_heatmap_start_total by (unfold MAXORDINAL; lia).
    destruct (col_row_to_date_total
      (Datetime (ordinal now - ordinal now `mod` 7 - 357) 0) 51 6)
      as [e He]; simpl; unfold MINORDINAL, MAXORDINAL; try lia.
    eexists _, e. split; [reflexivity|exact He].
  - intros start Hs.
    apply get_heatmap_start_Some in Hs as (-> & Hlo & Hhi).
    exists (Datetime (ordinal now - ordinal now `mod` 7) 0). split_and!.
    + unfold most_recent_sunday, weekday, SUNDAY. simpl.
      split_and!; [|done|lia|lia].
      apply sunday_ordinal.
    + unfold dt_sub, dt_add. simpl.
      rewrite bool_decide_eq_true_2 by (unfold MINORDINAL; lia). done.
    + intros e He. apply col_row_to_date_Some in He as [Ho Hm].
      simpl in *. unfold dt_le, dt_lt. simpl.
      destruct (decide (ordinal now `mod` 7 = 6)) as [H6|H6].
      * right. destruct e as [eo em]. unfold replace_midnight.
        simpl in *. f_equal; lia.
      * left. left. lia.
Qed.

(** ** The order of the traversal *)

Lemma elem_of_cells (a n m : nat) (col row : nat) :
  (col, row) ∈ (c ← seq a n; (c,.) <$> seq 0 m)
  ↔ (a ≤ col < a + n)%nat ∧ (row < m)%nat.
Proof.
  rewrite list_elem_of_bind. split.
  - intros (c & Hin & Hc). apply elem_of_seq in Hc.
    apply list_elem_of_fmap in Hin as (r & [= -> ->] & Hr).
    apply elem_of_seq in Hr. lia.
  - intros [Hc Hr]. exists col. split.
    + apply list_elem_of_fmap. exists row. split; [done|].
      apply elem_of_seq. lia.
    + apply elem_of_seq. lia.
Qed.

Lemma seq_sorted (a n : nat) : StronglySorted lt (seq a n).
Proof.
  revert a. induction n as [|n IH]; intros a; simpl; constructor; [done|].
  apply Forall_forall. intros x Hx. apply elem_of_seq in Hx. lia.
Qed.

Lemma cells_sorted (m n a : nat) :
  StronglySorted cell_before (c ← seq a n; (c,.) <$> seq 0 m).
Proof.
  revert a. induction n as [|n IH]; intros a; simpl; [constructor|].
  apply StronglySorted_app_2.
  - intros [c1 r1] [c2 r2] H1 H2.
    apply list_elem_of_fmap in H1 as (r & [= -> ->] & Hr).
    apply elem_of_cells in H2 as [Hc _]. left. simpl. lia.
  - apply (StronglySorted_fmap (pair a) lt cell_before);
      [|apply seq_sorted].
    intros r1 r2 Hlt. right. simpl. done.
  - apply IH.
Qed.

Lemma commit_loop_cells `(run : invocation → World → completed * World)
    strftime strip (g : Grid) start total (f : frame World) :
  commit_loop run strftime strip g start total f
  = for_ cells_in_order
      (λ '(col, row), commit_cell run strftime strip g start total col row) f.
Proof. unfold commit_loop. by rewrite for_nested. Qed.

(** C3. For every start date and cells [(col1, row1)], [(col2, row2)]
    with rows below 7, the first preceding the second in column-major,
    row-minor order: the date of the first is strictly earlier than the
    date of the second, and both dates exist whenever the later one is
    representable.  The loop of [make_commits] is a single pass over the
    list of all [(col, row)] with [col < 52] and [row < 7], arranged in
    exactly that order. *)
Theorem cell_dates_increase :
  (∀ (start : datetime) (col1 row1 col2 row2 : nat),
     (row1 < 7)%nat → (row2 < 7)%nat →
     cell_before (col1, row1) (col2, row2) →
     (∀ d1 d2, col_row_to_date start col1 row1 = Some d1 →
               col_row_to_date start col2 row2 = Some d2 → dt_lt d1 d2)
     ∧ (MINORDINAL ≤ ordinal start →
        ordinal start + (col2 * 7 + row2) ≤ MAXORDINAL →
        is_Some (col_row_to_date start col1 row1)
        ∧ is_Some (col_row_to_date start col2 row2)))
  ∧ StronglySorted cell_before cells_in_order
  ∧ (∀ col row : nat,
       (col, row) ∈ cells_in_order ↔ (col < COLS)%nat ∧ (row < 7)%nat)
  ∧ (∀ `(run : invocation → World → completed * World) strftime strip
       (g : Grid) start total (f : frame World),
       commit_loop run strftime strip g start total f
       = for_ cells_in_order
           (λ '(col, row), commit_cell run strftime strip g start total col row)
           f).
Proof.
  split_and!.
  - intros start col1 row1 col2 row2 Hr1 Hr2 Hbefore.
    assert (col1 * 7 + row1 < col2 * 7 + row2) as Hlt.
    { destruct Hbefore as [Hc|[Hc Hr]]; simpl in *; lia. }
    split.
    + intros d1 d2 H1 H2.
      apply col_row_to_date_Some in H1 as [H1 _].
      apply col_row_to_date_Some in H2 as [H2 _].
      left. lia.
    + intros Hmin Hmax.
      split; apply col_row_to_date_total; lia.
  - apply cells_sorted.
  - intros col row. unfold cells_in_order, range.
    rewrite elem_of_cells. lia.
  - intros. apply commit_loop_cells.
Qed.

(** ** Inversion and shading *)

Lemma grid_set_spec (g : Grid) (r c : nat) v :
  wf_grid g → (r < ROWS)%nat → (c < COLS)%nat →
  ∃ g', grid_set g r c v = Some g'
      ∧ wf_grid g'
      ∧ ∀ r' c' : nat, cell g' r' c' =
          if decide (r' = r ∧ c' = c) then Some v else cell g r' c'.
Proof.
  intros Hwf Hr Hc.
  destruct (lookup_lt_is_Some_2 g r) as [row Hrow]; [by rewrite (proj1 Hwf)|].
  destruct (wf_row _ _ _ Hwf Hrow) as [Hlen _].
  rewrite (grid_set_nat g r c v row) by (done || lia).
  eexists. split; [done|]. split.
  - apply wf_insert_row; [done|]. by rewrite length_insert.
  - intros r' c'. rewrite cell_insert_row by (rewrite (proj1 Hwf); done).
    destruct (decide (r' = r)) as [->|Hne].
    + destruct (decide (c' = c)) as [->|Hc'].
      * rewrite decide_True by done. apply list_lookup_insert_eq. lia.
      * rewrite decide_False by (intros [_ ?]; done).
        rewrite list_lookup_insert_ne by done. unfold cell. by rewrite Hrow.
    + by rewrite decide_False by (intros [? _]; done).
Qed.

(** A loop nest that rewrites each cell from its own current value. *)
Lemma map_cells_spec (F : Z → Z) (body : nat → nat → Grid → option Grid)
    (g : Grid) :
  wf_grid g →
  (∀ (t : Grid) (r c : nat) v,
     wf_grid t → (r < ROWS)%nat → (c < COLS)%nat → cell t r c = Some v →
     ∃ t', body r c t = Some t'
         ∧ wf_grid t'
         ∧ ∀ r' c' : nat, cell t' r' c' =
             if decide (r' = r ∧ c' = c) then Some (F v) else cell t r' c') →
  ∃ g', for_ (range 7) (λ r t, for_ (range COLS) (body r) t) g = Some g'
      ∧ wf_grid g'
      ∧ ∀ r c : nat, (r < ROWS)%nat → (c < COLS)%nat →
          cell g' r c = F <$> cell g r c.
Proof.
  intros Hwf Hbody.
  rewrite (for_nested (range 7) (λ _, range COLS) body g).
  destruct (for_total_invariant
    (λ pre t, wf_grid t ∧ ∀ r c : nat, cell t r c =
       if decide ((r, c) ∈ pre) then F <$> cell g r c else cell g r c)
    (r ← range 7; (r,.) <$> range COLS) (λ '(r, c), body r c) g)
    as (g' & Hrun & Hwf' & Hcells).
  - split; [done|]. intros r c. rewrite decide_False; [done|].
    apply not_elem_of_nil.
  - intros pre [r c] t Hpre [Hwft Hcell].
    assert (Hin : (r, c) ∈ (r ← range 7; (r,.) <$> range COLS)).
    { destruct Hpre as [k ->]. rewrite !elem_of_app, list_elem_of_singleton.
      auto. }
    apply elem_of_cells in Hin as [Hr Hc].
    assert (Hnew : (r, c) ∉ pre).
    { intros Hold. destruct Hpre as [k Hk].
      pose proof (cells_sorted COLS 7 0) as Hsorted.
      unfold range in Hk. rewrite Hk in Hsorted.
      apply StronglySorted_app_1_l in Hsorted.
      pose proof (StronglySorted_app_1_elem_of _ _ _ _ _ Hsorted Hold
                    (proj2 (list_elem_of_singleton _ _) eq_refl)) as Hlt.
      destruct Hlt as [Hlt|[_ Hlt]]; simpl in Hlt; lia. }
    destruct (wf_cell g r c Hwf) as [v Hv]; [unfold ROWS; lia|lia|].
    destruct (Hbody t r c v Hwft) as (t' & Hrun & Hwft' & Hcell');
      [unfold ROWS; lia|lia| |].
    { rewrite Hcell. by rewrite decide_False. }
    exists t'. split; [done|]. split; [done|].
    intros r' c'. rewrite Hcell'.
    destruct (decide (r' = r ∧ c' = c)) as [[-> ->]|Hne].
    + rewrite decide_True by (rewrite elem_of_app, list_elem_of_singleton; auto).
      by rewrite Hv.
    + rewrite Hcell.
      destruct (decide ((r', c') ∈ pre)) as [Hp|Hp].
      * rewrite decide_True by (rewrite elem_of_app; auto). done.
      * rewrite decide_False; [done|].
        rewrite elem_of_app, list_elem_of_singleton.
        intros [?|[= -> ->]]; [done|]. by apply Hne.
  - exists g'. split; [done|]. split; [done|].
    intros r c Hr Hc. rewrite Hcells. rewrite decide_True; [done|].
    apply elem_of_cells. unfold ROWS in Hr. lia.
Qed.

Lemma compute_shading_spec (g : Grid) :
  wf_grid g →
  ∃ g', compute_shading g = Some g'
      ∧ wf_grid g'
      ∧ ∀ r c : nat, (r < ROWS)%nat → (c < COLS)%nat →
          cell g' r c = shade_value <$> cell g r c.
Proof.
  intros Hwf.
  apply (map_cells_spec shade_value
    (λ r c grid, v ← grid_get grid r c;
       if truthy v then grid_set grid r c COMMITS_FILL else Some grid) g Hwf).
  intros t r c v Hwft Hr Hc Hv. cbn beta.
  rewrite grid_get_nat, Hv, bind_Some_eq. unfold shade_value.
  destruct (truthy v) eqn:Htr.
  - by apply grid_set_spec.
  - exists t. split; [done|]. split; [done|]. intros r' c'.
    case_decide as Heq; [|done]. destruct Heq as [-> ->].
    rewrite Hv. unfold truthy in Htr.
    apply bool_decide_eq_false in Htr. f_equal. lia.
Qed.

Lemma invert_spec (g : Grid) :
  wf_grid g →
  ∃ g', invert g = Some g'
      ∧ wf_grid g'
      ∧ ∀ r c : nat, (r < ROWS)%nat → (c < COLS)%nat →
          cell g' r c = (λ v, 1 - v) <$> cell g r c.
Proof.
  intros Hwf.
  apply (map_cells_spec (λ v, 1 - v)
    (λ r c grid, v ← grid_get grid r c; grid_set grid r c (1 - v)) g Hwf).
  intros t r c v Hwft Hr Hc Hv. cbn beta.
  rewrite grid_get_nat, Hv, bind_Some_eq. by apply grid_set_spec.
Qed.

Lemma shading_postcondition (g : Grid) :
  wf_grid g → ∃ g', compute_shading g = Some g' ∧ wf_grid g' ∧ shaded g'.
Proof.
  intros Hwf.
  destruct (compute_shading_spec g Hwf) as (g' & Hrun & Hwf' & Hcell).
  exists g'. split; [done|]. split; [done|].
  apply Forall_lookup. intros r row Hrow.
  apply Forall_lookup. intros c v Hv.
  destruct (wf_row _ _ _ Hwf' Hrow) as [Hlen Hr].
  assert (Hc : (c < COLS)%nat).
  { rewrite <-Hlen. by eapply lookup_lt_Some. }
  specialize (Hcell r c Hr Hc). unfold cell at 1 in Hcell.
  rewrite Hrow in Hcell. simpl in Hcell. rewrite Hv in Hcell.
  destruct (cell g r c) as [v0|]; simpl in Hcell; [|done].
  injection Hcell as ->. unfold shade_value.
  destruct (truthy v0); auto.
Qed.

(** ** The grid after the module body has run *)

(** C1. After the shading phase the module-level grid exists (no phase
    raised), has exactly 7 rows of 52 columns, and each of its cells is 0
    or the weight constant [COMMITS_FILL] = 10.  The pipeline has no
    inputs, so this is a statement about the one grid every run builds.
    The shading phase by itself has this postcondition on every 7x52
    grid. *)
Theorem grid_after_shading :
  COMMITS_FILL = 10
  ∧ (∃ g : Grid, grid = Some g
       ∧ length g = 7%nat
       ∧ Forall (λ row, length row = 52%nat) g
       ∧ Forall (Forall (λ v, v = 0 ∨ v = COMMITS_FILL)) g)
  ∧ (∀ g : Grid, wf_grid g →
       ∃ g', compute_shading g = Some g'
           ∧ length g' = 7%nat
           ∧ Forall (λ row, length row = 52%nat) g'
           ∧ Forall (Forall (λ v, v = 0 ∨ v = COMMITS_FILL)) g').
Proof.
  split; [done|]. split.
  - destruct grid as [g|] eqn:Hg; [|by vm_compute in Hg].
    exists g. split; [done|].
    vm_compute in Hg. injection Hg as <-.
    split_and!; [done|..]; by apply (bool_decide_unpack _).
  - intros g Hwf.
    destruct (shading_postcondition g Hwf) as (g' & Hrun & [Hlen Hrows] & Hsh).
    by exists g'.
Qed.

(** ** Totals *)

Lemma sumZ_ext (f h : nat → Z) xs :
  (∀ x, x ∈ xs → f x = h x) → sumZ f xs = sumZ h xs.
Proof.
  induction xs as [|x xs IH]; intros Hfh; simpl; [done|].
  rewrite Hfh by left. rewrite IH; [done|]. intros; apply Hfh. by right.
Qed.

Lemma sumZ_add (f h : nat → Z) xs :
  sumZ (λ x, f x + h x) xs = sumZ f xs + sumZ h xs.
Proof. induction xs as [|x xs IH]; simpl; lia. Qed.

Lemma sumZ_scale (k : Z) (f : nat → Z) xs :
  sumZ (λ x, f x * k) xs = sumZ f xs * k.
Proof. induction xs as [|x xs IH]; simpl; lia. Qed.

Lemma sumZ_zero xs : sumZ (λ _, 0) xs = 0.
Proof. induction xs as [|x xs IH]; simpl; lia. Qed.

(** The two orders of summation over a rectangle agree. *)
Lemma sumZ_swap (f : nat → nat → Z) rs cs :
  sumZ (λ r, sumZ (λ c, f r c) cs) rs = sumZ (λ c, sumZ (λ r, f r c) rs) cs.
Proof.
  induction rs as [|r rs IH]; simpl.
  - by rewrite sumZ_zero.
  - by rewrite IH, sumZ_add.
Qed.

Lemma for_sum (xs : list nat) (body : nat → Z → option Z) (f : nat → Z) acc :
  (∀ x a, x ∈ xs → body x a = Some (a + f x)) →
  for_ xs body acc = Some (acc + sumZ f xs).
Proof.
  revert acc. induction xs as [|x xs IH]; intros acc Hbody; simpl.
  - f_equal. lia.
  - rewrite Hbody by left. simpl. rewrite IH.
    + f_equal. lia.
    + intros. apply Hbody. by right.
Qed.

Lemma grid_get_cellv (g : Grid) (r c : nat) :
  wf_grid g → (r < ROWS)%nat → (c < COLS)%nat →
  grid_get g r c = Some (cellv g r c).
Proof.
  intros Hwf Hr Hc. rewrite grid_get_nat. unfold cellv.
  by destruct (wf_cell g r c Hwf Hr Hc) as [v ->].
Qed.

(** A row-major accumulation over the cells of a well-formed grid. *)
Lemma sum_over_cells (F : Z → Z) (body : Z → Z → Z) (g : Grid) (acc : Z) :
  wf_grid g →
  (∀ a v, body a v = a + F v) →
  for_ (range 7) (λ r acc,
    for_ (range COLS) (λ c acc,
      v ← grid_get g r c; Some (body acc v)) acc) acc
  = Some (acc + sumZ (λ r, sumZ (λ c, F (cellv g r c)) (range COLS))
                     (range 7)).
Proof.
  intros Hwf Hbody. apply for_sum. intros r a Hr.
  apply elem_of_seq in Hr. apply for_sum. intros c b Hc.
  apply elem_of_seq in Hc.
  rewrite grid_get_cellv by (done || unfold ROWS; lia). simpl.
  by rewrite Hbody.
Qed.

Lemma lit_fill_sum (g : Grid) :
  wf_grid g →
  lit_fill g
  = Some (sumZ (λ r, sumZ (λ c, is_fill (cellv g r c)) (range COLS))
               (range 7)).
Proof.
  intros Hwf.
  apply (sum_over_cells is_fill
    (λ a v, if bool_decide (v = COMMITS_FILL) then a + 1 else a) g 0 Hwf).
  intros a v. unfold is_fill. case_bool_decide; lia.
Qed.

Lemma total_needed_sum (g : Grid) :
  wf_grid g →
  total_needed g
  = Some (sumZ (λ r, sumZ (λ c, cellv g r c) (range COLS)) (range 7)).
Proof.
  intros Hwf. by apply (sum_over_cells id Z.add g 0 Hwf).
Qed.

Lemma shaded_cellv (g : Grid) (r c : nat) :
  shaded g → cellv g r c = 0 ∨ cellv g r c = COMMITS_FILL.
Proof.
  intros Hsh. unfold cellv, cell.
  destruct (g !! r) as [row|] eqn:Hrow; simpl; [|by left].
  destruct (row !! c) as [v|] eqn:Hv; simpl; [|by left].
  apply (Forall_lookup_1 _ _ _ _ Hsh) in Hrow.
  by apply (Forall_lookup_1 _ _ _ _ Hrow) in Hv.
Qed.

(** On a shaded grid the two totals are the same number. *)
Lemma totals_agree (g : Grid) :
  wf_grid g →
  shaded g →
  ∃ n, lit_fill g = Some n
     ∧ total_commits g = Some (n * COMMITS_FILL)
     ∧ total_needed g = Some (n * COMMITS_FILL).
Proof.
  intros Hwf Hsh. unfold total_commits.
  rewrite lit_fill_sum, total_needed_sum by done.
  eexists. split_and!; [done|done|].
  f_equal. rewrite <-sumZ_scale. apply sumZ_ext. intros r _.
  rewrite <-sumZ_scale. apply sumZ_ext. intros c _.
  unfold is_fill.
  destruct (shaded_cellv g r c Hsh) as [->| ->]; by vm_compute.
Qed.

(** ** The commit driver *)

Lemma failures_app new1 new2 :
  failures (new1 ++ new2) = failures new1 + failures new2.
Proof. unfold failures. rewrite filter_app, length_app. lia. Qed.

Lemma failures_singleton c :
  failures [c] = if bool_decide (returncode c.2 ≠ 0) then 1 else 0.
Proof.
  unfold failures. rewrite filter_cons, filter_nil.
  case_bool_decide; case_decide; simpl in *; try done; tauto.
Qed.

Lemma progress_of_app out1 out2 :
  progress_of (out1 ++ out2) = progress_of out1 ++ progress_of out2.
Proof. apply omap_app. Qed.

Lemma progress_of_errors errs : Forall is_error errs → progress_of errs = [].
Proof.
  induction 1 as [|l errs (c & r & ->) _ IH]; [done|]. by simpl.
Qed.

Lemma weight_app g cs1 cs2 :
  weight g (cs1 ++ cs2) = weight g cs1 + weight g cs2.
Proof.
  induction cs1 as [|[col row] cs1 IH]; simpl; [done|].
  unfold weight in *. simpl. lia.
Qed.

Lemma weight_cells g (cols rows : list nat) :
  weight g (c ← cols; (c,.) <$> rows)
  = sumZ (λ c, sumZ (λ r, Z.max 0 (cellv g r c)) rows) cols.
Proof.
  induction cols as [|c cols IH]; [done|].
  rewrite bind_cons, weight_app, IH. unfold sumZ at 3. simpl.
  fold (sumZ (λ c, sumZ (λ r, Z.max 0 (cellv g r c)) rows) cols).
  f_equal. clear IH.
  induction rows as [|r rows IHr]; [done|].
  rewrite fmap_cons. unfold weight in *. simpl. by rewrite IHr.
Qed.

Section driver_facts.
Context {World : Type}.
Variable run : invocation → World → completed * World.
Variable strftime : string → datetime → string.
Variable strip : string → string.

Implicit Types (f : frame World) (p : process World).

Lemma run_rel_refl f : run_rel f f [] [].
Proof.
  unfold run_rel. rewrite !app_nil_r. split_and!; try done.
  - simpl. lia.
  - unfold failures. simpl. lia.
Qed.

Lemma run_rel_trans f1 f2 f3 new1 new2 out1 out2 :
  run_rel f1 f2 new1 out1 → run_rel f2 f3 new2 out2 →
  run_rel f1 f3 (new1 ++ new2) (out1 ++ out2).
Proof.
  intros (Hc1 & Ho1 & Hn1 & He1 & Hv1) (Hc2 & Ho2 & Hn2 & He2 & Hv2).
  unfold run_rel. rewrite Hc2, Hc1, Ho2, Ho1, Hn2, Hn1, He2, He1, Hv2, Hv1.
  rewrite failures_app, length_app, <-!app_assoc.
  split_and!; try done; lia.
Qed.

(** One iteration of the innermost loop: exactly one child process, and
    an error line exactly when it failed. *)
Lemma commit_once_spec e f :
  ∃ f' call errs,
    commit_once run strip e f = Some f'
    ∧ run_rel f f' [call] errs
    ∧ env call.1 = e
    ∧ Forall is_error errs
    ∧ (length errs : Z) = failures [call].
Proof.
  unfold commit_once, subprocess_run.
  destruct (run _ _) as [result w] eqn:Hrun.
  case_bool_decide as Hrc.
  - eexists _, (_, result), [_]. split; [done|].
    rewrite failures_singleton. simpl.
    rewrite bool_decide_eq_true_2 by done.
    unfold run_rel. simpl. rewrite failures_singleton. simpl.
    rewrite bool_decide_eq_true_2 by done.
    split_and!; try done; try lia.
    constructor; [|done]. by eexists _, _.
  - eexists _, (_, result), []. split; [done|].
    rewrite failures_singleton. simpl.
    rewrite bool_decide_eq_false_2 by lia.
    unfold run_rel. simpl. rewrite failures_singleton. simpl.
    rewrite bool_decide_eq_false_2 by lia.
    rewrite app_nil_r. split_and!; try done; lia.
Qed.

(** The innermost loop: one child process per iteration, all with
    environment [e]. *)
Lemma commit_burst_spec e (xs : list nat) :
  ∀ f, ∃ f' new errs,
    for_ xs (λ _, commit_once run strip e) f = Some f'
    ∧ run_rel f f' new errs
    ∧ length new = length xs
    ∧ Forall (λ c, env c.1 = e) new
    ∧ Forall is_error errs.
Proof.
  induction xs as [|x xs IH]; intros f; simpl.
  - exists f, [], []. split_and!; try done. apply run_rel_refl.
  - destruct (commit_once_spec e f)
      as (f1 & call & errs1 & -> & Hrel1 & He & Herr1 & _).
    simpl. destruct (IH f1)
      as (f' & new & errs & Hrun & Hrel & Hlen & Henv & Herr).
    exists f', ([call] ++ new), (errs1 ++ errs). split_and!.
    + done.
    + by eapply run_rel_trans.
    + simpl. by rewrite Hlen.
    + by constructor.
    + by apply Forall_app.
Qed.

Lemma commit_cell_spec (g : Grid) start total (col row : nat) f :
  wf_grid g → (col < COLS)%nat → (row < ROWS)%nat →
  (cellv g row col ≠ 0 → is_Some (col_row_to_date start col row)) →
  ∃ f' new errs,
    commit_cell run strftime strip g start total col row f = Some f'
    ∧ run_rel f f' new
        (errs ++ if bool_decide (cellv g row col ≠ 0
                                 ∧ count f' `mod` 200 = 0)
                 then [Progress_line (count f') total] else [])
    ∧ (length new : Z) = Z.max 0 (cellv g row col)
    ∧ Forall is_error errs
    ∧ Forall (λ c, cellv g row col ≠ 0
                   ∧ Some (env c.1)
                     = cell_env strftime (environ (proc f)) start col row)
             new.
Proof.
  intros Hwf Hcol Hrow Hdate. unfold commit_cell.
  rewrite grid_get_cellv by done. simpl. unfold truthy.
  case_bool_decide as Hv; simpl.
  - destruct (Hdate Hv) as [date Hd]. rewrite Hd. simpl.
    set (e := <["GIT_COMMITTER_DATE" := _]> _).
    destruct (commit_burst_spec e (rangeZ (cellv g row col)) f)
      as (f1 & new & errs & -> & Hrel & Hlen & Henv & Herr).
    simpl.
    assert (Hnew : (length new : Z) = Z.max 0 (cellv g row col)).
    { rewrite Hlen. unfold rangeZ. rewrite length_seq. lia. }
    assert (Hcell : Forall (λ c, cellv g row col ≠ 0
                     ∧ Some (env c.1)
                       = cell_env strftime (environ (proc f)) start col row)
                   new).
    { eapply Forall_impl; [exact Henv|]. intros c Hc. split; [done|].
      unfold cell_env. rewrite Hd. simpl. by rewrite Hc. }
    case_bool_decide as Hmod.
    + eexists _, new, errs. split; [done|]. simpl.
      rewrite bool_decide_eq_true_2 by done.
      split_and!; try done.
      destruct Hrel as (Hc & Ho & Hn & He & Hv').
      unfold run_rel. simpl. rewrite Ho, app_assoc. done.
    + exists f1, new, errs. split; [done|].
      rewrite bool_decide_eq_false_2 by (intros [_ ?]; done).
      rewrite app_nil_r. done.
  - exists f, [], []. split; [done|].
    rewrite bool_decide_eq_false_2 by (intros [? _]; done).
    split_and!; try done.
    + apply run_rel_refl.
    + simpl. lia.
Qed.

Lemma progress_marks_refl c total : progress_marks c c total = [].
Proof. unfold progress_marks. by rewrite Z.sub_diag. Qed.

Lemma progress_marks_app lo mid hi total :
  lo ≤ mid → mid ≤ hi →
  progress_marks lo mid total ++ progress_marks mid hi total
  = progress_marks lo hi total.
Proof.
  intros H1 H2. unfold progress_marks.
  assert (lo `div` 200 ≤ mid `div` 200) by (by apply Z.div_le_mono).
  assert (mid `div` 200 ≤ hi `div` 200) by (by apply Z.div_le_mono).
  rewrite <-fmap_app.
  replace (hi `div` 200 - lo `div` 200)
    with ((mid `div` 200 - lo `div` 200) + (hi `div` 200 - mid `div` 200))
    by lia.
  rewrite seqZ_app by lia. do 3 f_equal. lia.
Qed.

(** Ten attempts from a multiple of ten cross at most one multiple of
    200, and only by landing on it. *)
Lemma progress_marks_step c total :
  c `mod` 10 = 0 →
  progress_marks c (c + 10) total
  = if bool_decide ((c + 10) `mod` 200 = 0) then [(c + 10, total)] else [].
Proof.
  intros Hc. unfold progress_marks. case_bool_decide as Hm.
  - replace ((c + 10) `div` 200 - c `div` 200) with 1
      by (Z.div_mod_to_equations; lia).
    simpl. do 2 f_equal. Z.div_mod_to_equations; lia.
  - replace ((c + 10) `div` 200 - c `div` 200) with 0
      by (Z.div_mod_to_equations; lia).
    done.
Qed.

Lemma commit_cells_spec (g : Grid) start total cs :
  wf_grid g → visitable g start cs →
  ∀ f, ∃ f' new out,
    for_ cs (λ '(col, row),
      commit_cell run strftime strip g start total col row) f = Some f'
    ∧ run_rel f f' new out
    ∧ (length new : Z) = weight g cs
    ∧ Forall is_loop_line out
    ∧ Forall (λ c, ∃ col row,
               (col, row) ∈ cs ∧ cellv g row col ≠ 0
               ∧ Some (env c.1)
                 = cell_env strftime (environ (proc f)) start col row) new
    ∧ (shaded g → count f `mod` 10 = 0 →
       count f' `mod` 10 = 0
       ∧ progress_of out = progress_marks (count f) (count f') total).
Proof.
  intros Hwf Hvis. induction Hvis as [|[col row] cs (Hcol & Hrow & Hd) _ IH];
    intros f.
  - exists f, [], []. split_and!; try done.
    + apply run_rel_refl.
    + intros _ Hc. split; [done|]. by rewrite progress_marks_refl.
  - cbn [for_].
    destruct (commit_cell_spec g start total col row f Hwf Hcol Hrow Hd)
      as (f1 & new1 & errs & -> & Hrel1 & Hlen1 & Herr & Henv1).
    simpl.
    destruct (IH f1) as (f' & new & out & Hrun & Hrel & Hlen & Hout & Henv & Hprog).
    eexists f', (new1 ++ new), (_ ++ out). split_and!.
    + done.
    + by eapply run_rel_trans.
    + rewrite length_app, Nat2Z.inj_add, Hlen1, Hlen. done.
    + apply Forall_app. split; [|done]. apply Forall_app. split.
      * eapply Forall_impl; [exact Herr|]. intros l Hl. by left.
      * case_bool_decide; [|done]. constructor; [|done].
        right. by eexists _, _.
    + apply Forall_app. split.
      * eapply Forall_impl; [exact Henv1|]. intros c [Hv Hc].
        exists col, row. split_and!; [left|done|done].
      * eapply Forall_impl; [exact Henv|].
        intros c (col' & row' & Hin & Hv & Hc).
        exists col', row'. split_and!; [by right|done|].
        destruct Hrel1 as (_ & _ & _ & _ & <-). done.
    + intros Hsh Hc.
      destruct Hrel1 as (_ & _ & Hn1 & _ & _).
      destruct Hrel as (_ & _ & Hn & _ & _).
      assert (Hstep : count f1 `mod` 10 = 0
        ∧ progress_of
            (errs ++ (if bool_decide (cellv g row col ≠ 0
                                      ∧ count f1 `mod` 200 = 0)
                      then [Progress_line (count f1) total] else []))
          = progress_marks (count f) (count f1) total).
      { rewrite progress_of_app, progress_of_errors by done. simpl.
        destruct (shaded_cellv g row col Hsh) as [H0|H10].
        - rewrite H0 in *. replace (count f1) with (count f) by lia.
          rewrite progress_marks_refl.
          rewrite bool_decide_eq_false_2 by (intros [? _]; done). done.
        - rewrite H10 in *. unfold COMMITS_FILL in *.
          replace (count f1) with (count f + 10) by lia.
          rewrite progress_marks_step by done. split.
          + Z.div_mod_to_equations; lia.
          + case_bool_decide as H1; case_bool_decide as H2; try done.
            * destruct H1 as [_ H1]. done.
            * destruct H1. split; [lia|done]. }
      destruct Hstep as [Hc1 Hp1]. destruct (Hprog Hsh Hc1) as [Hc' Hp'].
      split; [done|].
      rewrite progress_of_app, Hp1, Hp'.
      apply progress_marks_app; lia.
Qed.

Lemma cells_visitable (g : Grid) (now start : datetime) :
  clock_ok now → get_heatmap_start now = Some start →
  visitable g start cells_in_order.
Proof.
  intros [Hlo Hhi] Hs. apply Forall_forall. intros [col row] Hin.
  apply elem_of_cells in Hin as [Hc Hr].
  apply get_heatmap_start_Some in Hs as (-> & _ & _).
  pose proof (Z.mod_pos_bound (ordinal now) 7 ltac:(lia)) as Hmod.
  split_and!; [lia|done|]. intros _.
  apply col_row_to_date_total; simpl; unfold MINORDINAL, MAXORDINAL in *;
    unfold COLS in *; lia.
Qed.

(** Over non-negative cells the two traversal orders add up to the same
    total. *)
Lemma weight_total (g : Grid) (T : Z) :
  wf_grid g → nonneg g → total_needed g = Some T →
  weight g cells_in_order = T.
Proof.
  intros Hwf Hnn HT. rewrite total_needed_sum in HT by done.
  apply (inj Some) in HT. rewrite <-HT.
  unfold cells_in_order. rewrite weight_cells.
  rewrite sumZ_swap. apply sumZ_ext. intros r _. apply sumZ_ext.
  intros c _. unfold cellv, cell.
  destruct (g !! r) as [row|] eqn:Hrow; simpl; [|done].
  destruct (row !! c) as [v|] eqn:Hv; simpl; [|done].
  apply (Forall_lookup_1 _ _ _ _ Hnn) in Hrow.
  apply (Forall_lookup_1 _ _ _ _ Hrow) in Hv. lia.
Qed.

Lemma shaded_nonneg (g : Grid) : shaded g → nonneg g.
Proof.
  intros Hsh. eapply Forall_impl; [exact Hsh|]. intros row Hrow.
  eapply Forall_impl; [exact Hrow|]. intros v [->| ->]; by vm_compute.
Qed.

(** What a run of [make_commits] does, for any behaviour of the child
    processes. *)
Lemma make_commits_spec now (g : Grid) p :
  wf_grid g → clock_ok now →
  ∃ p' start T new out,
    make_commits run strftime strip now g p = Some p'
    ∧ get_heatmap_start now = Some start
    ∧ total_needed g = Some T
    ∧ environ p' = environ p
    ∧ calls p' = calls p ++ new
    ∧ stdout p'
      = stdout p
        ++ [Start_line (strftime "%Y-%m-%d" start); Total_line T]
        ++ out
        ++ [Done_line (length new) (failures new)]
        ++ (if bool_decide (failures new = 0) then [Push_line] else [])
    ∧ (length new : Z) = weight g cells_in_order
    ∧ Forall is_loop_line out
    ∧ Forall (λ c, ∃ col row,
               (col, row) ∈ cells_in_order ∧ cellv g row col ≠ 0
               ∧ Some (env c.1) = cell_env strftime (environ p) start col row)
             new
    ∧ (shaded g → progress_of out = progress_marks 0 (length new) T).
Proof.
  intros Hwf Hclock.
  pose proof Hclock as [Hlo Hhi].
  assert (∃ start, get_heatmap_start now = Some start) as [start Hs].
  { eexists. apply get_heatmap_start_total. unfold MAXORDINAL in *. lia. }
  assert (∃ T, total_needed g = Some T) as [T HT].
  { eexists. by apply total_needed_sum. }
  pose (f0 := Frame
    (print (Total_line T) (print (Start_line (strftime "%Y-%m-%d" start)) p))
    0 0).
  destruct (commit_cells_spec g start T cells_in_order Hwf
              (cells_visitable g now start Hclock Hs) f0)
    as (f & new & out & Hloop & Hrel & Hlen & Hout & Henv & Hprog).
  rewrite <-commit_loop_cells in Hloop.
  unfold make_commits. rewrite Hs, bind_Some_eq, HT, bind_Some_eq.
  fold f0. rewrite Hloop, bind_Some_eq.
  destruct Hrel as (Hc & Ho & Hn & He & Hv).
  unfold f0 in Hc, Ho, Hn, He, Hv, Henv.
  cbn [count errors proc environ calls stdout print] in Hc, Ho, Hn, He, Hv,
    Henv.
  assert (Hcount : count f = length new) by lia.
  assert (Herrors : errors f = failures new) by lia.
  rewrite Hcount, Herrors.
  eexists _, start, T, new, out. split; [reflexivity|].
  split_and!; try done.
  - case_bool_decide; cbn [environ print]; by rewrite Hv.
  - case_bool_decide; cbn [calls print]; by rewrite Hc.
  - case_bool_decide; cbn [stdout print]; rewrite Ho, <-!app_assoc; done.
  - intros Hsh. destruct (Hprog Hsh) as [_ Hp]; [done|].
    rewrite Hp. f_equal. exact Hcount.
Qed.

(** [preview] returns and prints its two summary lines. *)
Lemma preview_spec now (g : Grid) (n : Z) :
  wf_grid g → clock_ok now → lit_fill g = Some n →
  ∃ out, preview strftime now g = Some out
       ∧ Preview_cells n COMMITS_FILL ∈ out
       ∧ Preview_total (n * COMMITS_FILL) ∈ out.
Proof.
  intros Hwf Hclock Hlit. pose proof Hclock as [Hlo Hhi].
  unfold preview. rewrite Hlit, bind_Some_eq. cbv beta zeta.
  match goal with
  | |- context [for_ (range 7) ?body []] =>
      destruct (for_is_Some (range 7) body []) as [rows ->]
  end.
  { intros r acc Hr. apply elem_of_seq in Hr.
    destruct (for_is_Some (range COLS)
      (λ c acc, v ← grid_get g r c;
         Some (acc +:+ (if bool_decide (v = COMMITS_FILL) then "#" else ".")))
      "") as [str Hstr].
    { intros c t Hc. apply elem_of_seq in Hc.
      rewrite grid_get_cellv by (done || unfold ROWS; lia). done. }
    unfold row_str. rewrite Hstr, bind_Some_eq.
    assert (is_Some (row_label r)) as [label ->]; [|done].
    unfold row_label. case_bool_decide; [|done].
    rewrite getitem_nat.
    destruct (lookup_lt_is_Some_2 DAYS r) as [day ->]; [simpl; lia|].
    done. }
  rewrite bind_Some_eq.
  rewrite get_heatmap_start_total by (unfold MAXORDINAL in *; lia).
  rewrite bind_Some_eq.
  pose proof (Z.mod_pos_bound (ordinal now) 7 ltac:(lia)) as Hmod.
  destruct (col_row_to_date_total
    (Datetime (ordinal now - ordinal now `mod` 7 - 357) 0)
    (COLS - 1)%nat 6) as [e ->];
    [simpl; unfold MINORDINAL, MAXORDINAL in *; lia
    |unfold COLS; lia
    |simpl; unfold MINORDINAL, MAXORDINAL, COLS in *; lia|].
  rewrite bind_Some_eq. eexists. split; [reflexivity|].
  rewrite !elem_of_app, !elem_of_cons. split; right; right; auto 10.
Qed.

(** C7. On a 7x52 grid whose cells are all 0 or [COMMITS_FILL], the total
    of [preview], (number of cells equal to [COMMITS_FILL]) times
    [COMMITS_FILL], is the total of the commit driver, the sum of all
    cell values; both are computed without error, and they are the
    numbers [preview] and [make_commits] print as their totals. *)
Theorem preview_total_matches now (g : Grid) p :
  wf_grid g →
  shaded g →
  ∃ n, lit_fill g = Some n
     ∧ total_commits g = Some (n * COMMITS_FILL)
     ∧ total_needed g = Some (n * COMMITS_FILL)
     ∧ (clock_ok now →
        ∃ out p',
          preview strftime now g = Some out
          ∧ Preview_cells n COMMITS_FILL ∈ out
          ∧ Preview_total (n * COMMITS_FILL) ∈ out
          ∧ make_commits run strftime strip now g p = Some p'
          ∧ Total_line (n * COMMITS_FILL) ∈ stdout p').
Proof.
  intros Hwf Hsh.
  destruct (totals_agree g Hwf Hsh) as (n & Hlit & Htc & Htn).
  exists n. split_and!; try done.
  intros Hclock.
  destruct (preview_spec now g n Hwf Hclock Hlit) as (out & Hp & Hc & Ht).
  destruct (make_commits_spec now g p Hwf Hclock)
    as (p' & start & T & new & lines & Hrun & _ & HT & _ & _ & Ho & _).
  assert (T = n * COMMITS_FILL) as -> by congruence.
  exists out, p'. split_and!; try done.
  rewrite Ho, !elem_of_app, !elem_of_cons. auto 10.
Qed.

(** C2. For a shaded grid of total weight [T] and child processes that
    succeed or fail in any pattern: [make_commits] returns, having run
    exactly [T] child processes; the count it reports as created is [T]
    and the count it reports as errors is the number of child processes
    that returned a non-zero status. *)
Theorem make_commits_tally now (g : Grid) p (T : Z) :
  wf_grid g →
  shaded g →
  clock_ok now →
  total_needed g = Some T →
  ∃ p' new start out,
    make_commits run strftime strip now g p = Some p'
    ∧ calls p' = calls p ++ new
    ∧ (length new : Z) = T
    ∧ stdout p'
      = stdout p
        ++ [Start_line (strftime "%Y-%m-%d" start); Total_line T]
        ++ out
        ++ [Done_line T (failures new)]
        ++ (if bool_decide (failures new = 0) then [Push_line] else [])
    ∧ Forall is_loop_line out.
Proof.
  intros Hwf Hsh Hclock HT.
  destruct (make_commits_spec now g p Hwf Hclock)
    as (p' & start & T' & new & out & Hrun & _ & HT' & _ & Hc & Ho & Hlen
        & Hout & _).
  assert (T' = T) as -> by congruence.
  rewrite (weight_total g T) in Hlen by (done || by apply shaded_nonneg).
  exists p', new, start, out. rewrite Hlen in Ho. done.
Qed.


(** C8, as the code has it.  The progress line is tied to the number of
    attempts, successful or not: on a shaded grid of total weight [T],
    whatever the child processes return, the progress lines printed are
    exactly one per multiple of 200 up to [T], in increasing order, each
    showing that multiple and [T]. *)
Theorem progress_every_200_attempts now (g : Grid) p :
  wf_grid g →
  shaded g →
  clock_ok now →
  ∃ p' T new out,
    make_commits run strftime strip now g p = Some p'
    ∧ total_needed g = Some T
    ∧ calls p' = calls p ++ new
    ∧ (length new : Z) = T
    ∧ stdout p' = stdout p ++ out
    ∧ progress_of out = (λ k, (200 * k, T)) <$> seqZ 1 (T `div` 200).
Proof.
  intros Hwf Hsh Hclock.
  destruct (make_commits_spec now g p Hwf Hclock)
    as (p' & start & T & new & out & Hrun & _ & HT & _ & Hc & Ho & Hlen
        & _ & _ & Hprog).
  rewrite (weight_total g T) in Hlen by (done || by apply shaded_nonneg).
  eexists p', T, new, _. split_and!; try done.
  rewrite !progress_of_app, (Hprog Hsh), Hlen.
  replace (progress_of (if bool_decide (failures new = 0)
                        then [Push_line] else [])) with (@nil (Z * Z))
    by (by case_bool_decide).
  simpl. rewrite app_nil_r. unfold progress_marks.
  by rewrite Z.sub_0_r.
Qed.

End driver_facts.

(** ** More on the grid phases *)

Lemma grid_Forall_cell (P : Z → Prop) (g : Grid) :
  Forall (Forall P) g ↔ ∀ (r c : nat) v, cell g r c = Some v → P v.
Proof.
  rewrite Forall_lookup. split.
  - intros Hall r c v Hcell. unfold cell in Hcell.
    destruct (g !! r) as [row|] eqn:Hrow; simpl in Hcell; [|done].
    specialize (Hall r row Hrow). rewrite Forall_lookup in Hall. eauto.
  - intros Hcell r row Hrow. apply Forall_lookup. intros c v Hv.
    apply (Hcell r c). unfold cell. by rewrite Hrow.
Qed.

Lemma cell_in_range (g : Grid) (r c : nat) v :
  wf_grid g → cell g r c = Some v → (r < ROWS)%nat ∧ (c < COLS)%nat.
Proof.
  intros Hwf Hcell. unfold cell in Hcell.
  destruct (g !! r) as [row|] eqn:Hrow; simpl in Hcell; [|done].
  destruct (wf_row _ _ _ Hwf Hrow) as [Hlen Hr]. split; [done|].
  rewrite <-Hlen. by eapply lookup_lt_Some.
Qed.

(** A run of single-cell writes on one row. *)
Lemma row_writes_spec (r : nat) (v : Z) (cols : list Z) :
  (r < ROWS)%nat → Forall (λ col, 0 ≤ col < COLS) cols →
  ∀ g : Grid, wf_grid g →
  ∃ g', for_ cols (λ col grid, grid_set grid r col v) g = Some g'
      ∧ wf_grid g'
      ∧ ∀ r' c' : nat, cell g' r' c' =
          if decide (r' = r ∧ (c' : Z) ∈ cols) then Some v else cell g r' c'.
Proof.
  intros Hr Hcols. induction Hcols as [|col cols Hcol _ IH]; intros g Hwf.
  - exists g. split_and!; try done. intros r' c'.
    rewrite decide_False; [done|]. intros [_ Hin]. by apply elem_of_nil in Hin.
  - cbn [for_]. rewrite <-(Z2Nat.id col) by lia.
    destruct (grid_set_spec g r (Z.to_nat col) v Hwf Hr)
      as (g1 & -> & Hwf1 & Hc1); [lia|].
    rewrite bind_Some_eq.
    destruct (IH g1 Hwf1) as (g' & Hrun & Hwf' & Hc').
    exists g'. split_and!; try done.
    intros r' c'. rewrite Hc', Hc1.
    destruct (decide (r' = r ∧ (c' : Z) ∈ cols)) as [[-> Hin]|Hout].
    + rewrite decide_True; [done|]. split; [done|]. by right.
    + destruct (decide (r' = r ∧ c' = Z.to_nat col)) as [[-> ->]|Hne].
      * rewrite decide_True; [done|]. split; [done|].
        rewrite Z2Nat.id by lia. left.
      * rewrite decide_False; [done|]. intros [-> Hin].
        apply elem_of_cons in Hin as [Heq|Hin].
        -- apply Hne. split; [done|]. lia.
        -- by apply Hout.
Qed.

Lemma elem_of_trail_cols (c : nat) :
  (c : Z) ∈ range3 11 40 2 ↔ (11 ≤ c ≤ 39)%nat ∧ (c `mod` 2 = 1)%nat.
Proof.
  unfold range3. change (Z.to_nat ((40 - 11 + 2 - 1) `div` 2)) with 15%nat.
  rewrite list_elem_of_fmap. split.
  - intros (k & Hk & Hin). apply elem_of_seq in Hin.
    split; [lia|]. replace c with (1 + (5 + k) * 2)%nat by lia.
    by rewrite Nat.Div0.mod_add.
  - intros [Hc Hodd]. exists ((c - 11) / 2)%nat.
    pose proof (Nat.div_mod c 2 ltac:(lia)) as Hdiv.
    pose proof (Nat.div_mod (c - 11) 2 ltac:(lia)) as Hdiv'.
    assert ((c - 11) `mod` 2 = 0)%nat as Hev.
    { replace (c - 11)%nat with (2 * (c / 2 - 5))%nat by lia.
      rewrite Nat.mul_comm. apply Nat.Div0.mod_mul. }
    split; [lia|]. apply elem_of_seq.
    assert ((c - 11) / 2 < 15)%nat; [|lia].
    apply Nat.Div0.div_lt_upper_bound. lia.
Qed.

Lemma trail_spec (g : Grid) :
  wf_grid g →
  ∃ g', trail g = Some g'
      ∧ wf_grid g'
      ∧ ∀ r c : nat, cell g' r c =
          if decide (on_trail r c) then Some 1 else cell g r c.
Proof.
  intros Hwf.
  destruct (row_writes_spec 3 1 (range3 11 40 2)) with (g := g)
    as (g' & Hrun & Hwf' & Hcell); [unfold ROWS; lia| |done|].
  { apply Forall_forall. intros col Hin.
    apply list_elem_of_fmap in Hin as (k & -> & Hk).
    apply elem_of_seq in Hk.
    change (Z.to_nat ((40 - 11 + 2 - 1) `div` 2)) with 15%nat in Hk.
    unfold COLS. lia. }
  exists g'. split_and!; try done.
  intros r c. rewrite Hcell. unfold on_trail.
  destruct (decide (r = 3%nat ∧ (c : Z) ∈ range3 11 40 2)) as [[-> Hin]|Hout].
  - rewrite decide_True; [done|]. split; [done|]. by apply elem_of_trail_cols.
  - rewrite decide_False; [done|]. intros [-> Hin]. apply Hout.
    split; [done|]. by apply elem_of_trail_cols.
Qed.

(** X1. On a 7x52 grid the trail loop returns, keeps the shape, sets
    to 1 exactly the cells of row 3 in the odd columns 11, 13, ..., 39,
    and leaves every other cell as it was. *)
Theorem trail_cells (g : Grid) :
  wf_grid g →
  ∃ g', trail g = Some g'
      ∧ wf_grid g'
      ∧ ∀ r c : nat, cell g' r c =
          if decide (on_trail r c) then Some 1 else cell g r c.
Proof. apply trail_spec. Qed.

(** X2. The inversion loop is its own inverse: on a 7x52 grid it
    returns a 7x52 grid in which every cell [v] has become [1 - v], and
    running it on that result gives the first grid back. *)
Theorem invert_involutive (g : Grid) :
  wf_grid g →
  ∃ g', invert g = Some g'
      ∧ wf_grid g'
      ∧ (∀ r c : nat, (r < ROWS)%nat → (c < COLS)%nat →
           cell g' r c = (λ v, 1 - v) <$> cell g r c)
      ∧ invert g' = Some g.
Proof.
  intros Hwf.
  destruct (invert_spec g Hwf) as (g' & Hrun & Hwf' & Hcell).
  destruct (invert_spec g' Hwf') as (g'' & Hrun' & Hwf'' & Hcell').
  exists g'. split_and!; try done.
  rewrite Hrun'. f_equal. apply grid_ext; [done..|].
  intros r c Hc. destruct (decide (r < ROWS)%nat) as [Hr|Hr].
  - rewrite Hcell', Hcell by done.
    destruct (cell g r c) as [v|]; simpl; [|done]. f_equal. lia.
  - unfold cell. destruct Hwf as [Hl _], Hwf'' as [Hl'' _].
    rewrite !lookup_ge_None_2 by lia. done.
Qed.

(** X3. [compute_shading] is idempotent and leaves a shaded grid alone:
    on a 7x52 grid it sends every non-zero cell to [COMMITS_FILL] and
    keeps every zero cell, so shading its own result, or any grid whose
    cells are already 0 or [COMMITS_FILL], changes nothing. *)
Theorem compute_shading_idempotent (g : Grid) :
  wf_grid g →
  ∃ g', compute_shading g = Some g'
      ∧ (∀ r c : nat, (r < ROWS)%nat → (c < COLS)%nat →
           cell g' r c
           = (λ v, if bool_decide (v = 0) then 0 else COMMITS_FILL)
               <$> cell g r c)
      ∧ compute_shading g' = Some g'
      ∧ (shaded g → g' = g).
Proof.
  intros Hwf.
  destruct (compute_shading_spec g Hwf) as (g' & Hrun & Hwf' & Hcell).
  destruct (compute_shading_spec g' Hwf') as (g'' & Hrun' & Hwf'' & Hcell').
  assert (Hout : ∀ (h : Grid) (r c : nat), wf_grid h → ¬ (r < ROWS)%nat →
            cell h r c = None).
  { intros h r c [Hl _] Hr. unfold cell. rewrite lookup_ge_None_2 by lia.
    done. }
  exists g'. split_and!; try done.
  - intros r c Hr Hc. rewrite Hcell by done.
    destruct (cell g r c) as [v|]; simpl; [|done]. f_equal.
    unfold shade_value, truthy.
    case_bool_decide; case_bool_decide; done || lia.
  - rewrite Hrun'. f_equal. apply grid_ext; [done..|].
    intros r c Hc. destruct (decide (r < ROWS)%nat) as [Hr|Hr].
    + rewrite Hcell', Hcell by done.
      destruct (cell g r c) as [v|]; simpl; [|done]. f_equal.
      unfold shade_value, truthy, COMMITS_FILL.
      repeat case_bool_decide; done || lia.
    + by rewrite !Hout.
  - intros Hsh. apply grid_ext; [done..|].
    intros r c Hc. destruct (decide (r < ROWS)%nat) as [Hr|Hr].
    + rewrite Hcell by done.
      destruct (cell g r c) as [v|] eqn:Hv; simpl; [|done]. f_equal.
      pose proof (proj1 (grid_Forall_cell _ g) Hsh r c v Hv) as [->| ->];
        by vm_compute.
    + by rewrite !Hout.
Qed.

Lemma cell_outside (g : Grid) (r c : nat) :
  wf_grid g → ¬ ((r < ROWS)%nat ∧ (c < COLS)%nat) → cell g r c = None.
Proof.
  intros Hwf Hout. destruct (cell g r c) as [v|] eqn:Hv; [|done].
  destruct (cell_in_range g r c v Hwf Hv). tauto.
Qed.

(** X4. The compositor keeps the grid binary: on a 7x52 grid of zeros
    and ones, placing a sprite (of at most 7 rows, at a non-negative
    column), drawing the trail and inverting each return a 7x52 grid of
    zeros and ones. *)
Theorem compositor_keeps_binary (g : Grid) :
  wf_grid g →
  binary_grid g →
  (∀ (sprite : Sprite) (start_col : Z),
     (length sprite ≤ ROWS)%nat → 0 ≤ start_col →
     ∃ g', place sprite start_col g = Some g' ∧ wf_grid g' ∧ binary_grid g')
  ∧ (∃ g', trail g = Some g' ∧ wf_grid g' ∧ binary_grid g')
  ∧ (∃ g', invert g = Some g' ∧ wf_grid g' ∧ binary_grid g').
Proof.
  intros Hwf Hbin. pose proof (proj1 (grid_Forall_cell _ g) Hbin) as Hb.
  split_and!.
  - intros sprite start_col Hlen Hstart.
    destruct (place_spec sprite start_col g Hwf Hstart Hlen)
      as (g' & Hrun & Hwf' & Hcell).
    exists g'. split_and!; try done.
    apply grid_Forall_cell. intros r c v Hv.
    destruct (cell_in_range g' r c v Hwf' Hv) as [_ Hc].
    rewrite Hcell in Hv by done.
    destruct (sprite_px sprite r (c - start_col)) as [px|].
    + injection Hv as <-. unfold binary. destruct (truthy px); auto.
    + by eapply Hb.
  - destruct (trail_spec g Hwf) as (g' & Hrun & Hwf' & Hcell).
    exists g'. split_and!; try done.
    apply grid_Forall_cell. intros r c v Hv. rewrite Hcell in Hv.
    case_decide.
    + injection Hv as <-. auto.
    + by eapply Hb.
  - destruct (invert_spec g Hwf) as (g' & Hrun & Hwf' & Hcell).
    exists g'. split_and!; try done.
    apply grid_Forall_cell. intros r c v Hv.
    destruct (cell_in_range g' r c v Hwf' Hv) as [Hr Hc].
    rewrite Hcell in Hv by done.
    destruct (cell g r c) as [v0|] eqn:Hv0; simpl in Hv; [|done].
    injection Hv as <-. destruct (Hb r c v0 Hv0) as [->| ->]; auto.
Qed.

Lemma place_cells_beyond (start : Z) (r : nat) (row : list Z) :
  COLS ≤ start →
  ∀ (k : nat) (g : Grid),
    for_ (zip (seq k (length row)) row) (place_cell start r) g = Some g.
Proof.
  intros Hstart. induction row as [|val rest IH]; intros k g; [done|].
  cbn [length seq zip zip_with for_ place_cell].
  rewrite bool_decide_eq_false_2 by lia. rewrite bind_Some_eq. apply IH.
Qed.

(** X5. A sprite placed at or beyond the right edge changes nothing and
    raises nothing: for a column of 52 or more, [place] returns the grid
    it was given, whatever the sprite (any number of rows, any widths)
    and whatever the grid. *)
Theorem place_beyond_right_edge (sprite : Sprite) (start_col : Z) (g : Grid) :
  COLS ≤ start_col → place sprite start_col g = Some g.
Proof.
  intros Hstart. rewrite place_unfold. unfold enumerate.
  generalize 0%nat. revert g.
  induction sprite as [|row rest IH]; intros g k; [done|].
  cbn [length seq zip zip_with for_ place_row]. unfold enumerate.
  rewrite place_cells_beyond by done. rewrite bind_Some_eq. apply IH.
Qed.

(** X6. Placing is idempotent: placing the same sprite at the same
    non-negative column on the result of [place] gives that result
    again. *)
Theorem place_idempotent (sprite : Sprite) (start_col : Z) (g : Grid) :
  wf_grid g →
  (length sprite ≤ ROWS)%nat →
  0 ≤ start_col →
  ∃ g', place sprite start_col g = Some g'
      ∧ place sprite start_col g' = Some g'.
Proof.
  intros Hwf Hlen Hstart.
  destruct (place_spec sprite start_col g Hwf Hstart Hlen)
    as (g' & Hrun & Hwf' & Hcell).
  destruct (place_spec sprite start_col g' Hwf' Hstart Hlen)
    as (g'' & Hrun' & Hwf'' & Hcell').
  exists g'. split; [done|]. rewrite Hrun'. f_equal.
  apply grid_ext; [done..|]. intros r c Hc.
  rewrite Hcell', Hcell by done.
  by destruct (sprite_px sprite r (c - start_col)).
Qed.

(** X7. Sprites that do not share a column can be placed in either
    order: for sprites of widths [w1] and [w2] at non-negative columns
    with [c1 + w1 ≤ c2], placing the first then the second gives the
    same grid as placing the second then the first. *)
Theorem place_commutes (s1 s2 : Sprite) (w1 w2 : nat) (c1 c2 : Z) (g : Grid) :
  wf_grid g →
  (length s1 ≤ ROWS)%nat → (length s2 ≤ ROWS)%nat →
  Forall (λ row, length row = w1) s1 →
  Forall (λ row, length row = w2) s2 →
  0 ≤ c1 → c1 + w1 ≤ c2 →
  ∃ g', (place s1 c1 g ≫= place s2 c2) = Some g'
      ∧ (place s2 c2 g ≫= place s1 c1) = Some g'.
Proof.
  intros Hwf Hl1 Hl2 Hw1 Hw2 Hc1 Hc2.
  destruct (place_spec s1 c1 g) as (ga & -> & Hwfa & Hca); [done|lia|done|].
  destruct (place_spec s2 c2 ga) as (gab & Hab & Hwfab & Hcab);
    [done|lia|done|].
  destruct (place_spec s2 c2 g) as (gb & -> & Hwfb & Hcb); [done|lia|done|].
  destruct (place_spec s1 c1 gb) as (gba & Hba & Hwfba & Hcba);
    [done|lia|done|].
  rewrite !bind_Some_eq. exists gab. split; [done|].
  rewrite Hba. f_equal. apply grid_ext; [done..|]. intros r c Hc.
  rewrite Hcba, Hcb, Hcab, Hca by done.
  destruct (decide (c2 ≤ c)) as [Hge|Hlt].
  - rewrite (sprite_px_outside s1 w1) by (done || lia).
    by destruct (sprite_px s2 r (c - c2)).
  - rewrite (sprite_px_outside s2 w2) by (done || lia).
    by destruct (sprite_px s1 r (c - c1)).
Qed.

Lemma zip_seq_app {A} (l1 l2 : list A) (k : nat) :
  zip (seq k (length (l1 ++ l2))) (l1 ++ l2)
  = zip (seq k (length l1)) l1
    ++ zip (seq (k + length l1) (length l2)) l2.
Proof.
  revert k. induction l1 as [|x l1 IH]; intros k; simpl.
  - by rewrite Nat.add_0_r.
  - replace (k + S (length l1))%nat with (S k + length l1)%nat by lia.
    by rewrite IH.
Qed.

(** X8. A sprite with an eighth row does not fit the 7-row grid: when
    its row of index 7 has a pixel and the column is inside the grid,
    [place] raises [IndexError]. *)
Theorem place_tall_sprite_raises (sprite : Sprite) (start_col : Z)
    (g : Grid) (row : list Z) :
  wf_grid g →
  0 ≤ start_col < COLS →
  sprite !! 7%nat = Some row →
  row ≠ [] →
  place sprite start_col g = None.
Proof.
  intros Hwf Hstart Hrow Hne. rewrite place_unfold. unfold enumerate.
  rewrite <-(take_drop_middle sprite 7 row Hrow).
  assert (Hlen : length (take 7 sprite) = 7%nat).
  { apply length_take_le. apply lookup_lt_Some in Hrow. lia. }
  rewrite zip_seq_app, for_app.
  destruct (place_rows_spec start_col (take 7 sprite) 0 g)
    as (g1 & -> & Hwf1 & _); [done|lia|rewrite Hlen; unfold ROWS; lia|].
  rewrite bind_Some_eq, Hlen.
  destruct row as [|val rest]; [done|].
  cbn [length seq zip zip_with for_ place_row enumerate place_cell].
  rewrite bool_decide_eq_true_2 by lia.
  unfold grid_set. rewrite getitem_nat.
  rewrite lookup_ge_None_2 by (rewrite (proj1 Hwf1); unfold ROWS; lia).
  done.
Qed.

(** X9. A sprite placed further left than one grid width raises: for a
    column below -52 and a sprite whose first row has a pixel, the very
    first write is out of range and [place] raises [IndexError]. *)
Theorem place_far_left_raises (row : list Z) (rest : Sprite)
    (start_col : Z) (g : Grid) :
  wf_grid g →
  start_col < - COLS →
  row ≠ [] →
  place (row :: rest) start_col g = None.
Proof.
  intros Hwf Hstart Hne. rewrite place_unfold. unfold enumerate.
  destruct row as [|val row']; [done|].
  cbn [length seq zip zip_with for_ place_row enumerate place_cell].
  rewrite bool_decide_eq_true_2 by lia.
  destruct (lookup_lt_is_Some_2 g 0) as [g0 Hg0];
    [rewrite (proj1 Hwf); unfold ROWS; lia|].
  destruct (wf_row _ _ _ Hwf Hg0) as [Hlen _].
  unfold grid_set. rewrite getitem_nat, Hg0, bind_Some_eq.
  unfold setitem, index. rewrite Hlen.
  rewrite (bool_decide_eq_false_2 (0 ≤ start_col + 0%nat < COLS)) by lia.
  rewrite (bool_decide_eq_false_2 (- COLS ≤ start_col + 0%nat < 0)) by lia.
  done.
Qed.

Lemma for_preserves {I S} (P : S → Prop) (xs : list I)
    (body : I → S → option S) s s' :
  (∀ x t t', x ∈ xs → P t → body x t = Some t' → P t') →
  P s → for_ xs body s = Some s' → P s'.
Proof.
  revert s. induction xs as [|x xs IH]; intros s Hstep HP Hrun; simpl in *.
  - by simplify_eq.
  - destruct (body x s) as [t|] eqn:Hb; simpl in Hrun; [|done].
    apply (IH t); [|by eapply Hstep; [left|..]|done].
    intros y u u' Hy. apply Hstep. by right.
Qed.

Lemma for_ext_inv {I S} (P : S → Prop) (xs : list I)
    (f g : I → S → option S) s :
  (∀ x t, x ∈ xs → P t → f x t = g x t) →
  (∀ x t t', x ∈ xs → P t → g x t = Some t' → P t') →
  P s → for_ xs f s = for_ xs g s.
Proof.
  revert s. induction xs as [|x xs IH]; intros s Hfg Hstep HP; simpl.
  - done.
  - rewrite Hfg by (done || left).
    destruct (g x s) as [t|] eqn:Hg; simpl; [|done].
    apply IH.
    + intros y u Hy. apply Hfg. by right.
    + intros y u u' Hy. apply Hstep. by right.
    + by eapply Hstep; [left|..].
Qed.

Lemma grid_set_wf (g g' : Grid) (r : nat) (c v : Z) :
  wf_grid g → grid_set g r c v = Some g' → wf_grid g'.
Proof.
  intros Hwf Hset. unfold grid_set in Hset. rewrite getitem_nat in Hset.
  destruct (g !! r) as [row|] eqn:Hrow; simpl in Hset; [|done].
  destruct (wf_row _ _ _ Hwf Hrow) as [Hlen Hr].
  destruct (setitem row c v) as [row'|] eqn:Hrow'; [|done].
  rewrite bind_Some_eq in Hset. unfold setitem in Hset.
  rewrite index_nat in Hset by (rewrite (proj1 Hwf); done).
  rewrite bind_Some_eq in Hset. injection Hset as <-. apply wf_insert_row; [done|].
  unfold setitem in Hrow'.
  destruct (index (length row) c) as [k|]; simpl in Hrow'; [|done].
  injection Hrow' as <-. by rewrite length_insert.
Qed.

Lemma setitem_negative {A} (l : list A) (c : Z) (v : A) :
  - length l ≤ c < 0 → setitem l c v = setitem l (c + length l) v.
Proof.
  intros Hc. unfold setitem, index.
  rewrite (bool_decide_eq_false_2 (0 ≤ c < length l)) by lia.
  rewrite (bool_decide_eq_true_2 (- length l ≤ c < 0)) by lia.
  rewrite (bool_decide_eq_true_2 (0 ≤ c + length l < length l)) by lia.
  do 3 f_equal. lia.
Qed.

Lemma grid_set_negative (g : Grid) (r : nat) (c v : Z) :
  wf_grid g → - COLS ≤ c < 0 →
  grid_set g r c v = grid_set g r (c + COLS) v.
Proof.
  intros Hwf Hc. unfold grid_set. rewrite getitem_nat.
  destruct (g !! r) as [row|] eqn:Hrow; [|done].
  destruct (wf_row _ _ _ Hwf Hrow) as [Hlen _].
  rewrite !bind_Some_eq. rewrite setitem_negative by lia.
  by rewrite Hlen.
Qed.

Lemma place_cell_wf (start : Z) (r : nat) (x : nat * Z) (t t' : Grid) :
  wf_grid t → place_cell start r x t = Some t' → wf_grid t'.
Proof.
  destruct x as [c val]. unfold place_cell. intros Hwf Hrun.
  case_bool_decide; [by eapply grid_set_wf|by simplify_eq].
Qed.

Lemma place_row_wf (start : Z) (x : nat * list Z) (t t' : Grid) :
  wf_grid t → place_row start x t = Some t' → wf_grid t'.
Proof.
  destruct x as [r row]. unfold place_row. intros Hwf Hrun.
  eapply (for_preserves wf_grid); [|exact Hwf|exact Hrun].
  intros y u u' _. apply place_cell_wf.
Qed.

(** X10. Negative columns wrap around: for a column in [-52, 0) and a
    sprite that ends at or before column 0, [place] behaves exactly as
    at the column 52 further right, so the sprite lands at the right end
    of the grid. *)
Theorem place_negative_wraps (sprite : Sprite) (start_col : Z) (g : Grid) :
  wf_grid g →
  - COLS ≤ start_col →
  Forall (λ row, start_col + length row ≤ 0) sprite →
  place sprite start_col g = place sprite (start_col + COLS) g.
Proof.
  intros Hwf Hstart Hrows. rewrite !place_unfold.
  apply (for_ext_inv wf_grid); [| |done].
  - intros [r row] t Hin Hwft. unfold place_row.
    apply elem_of_zip_r in Hin.
    pose proof (proj1 (Forall_forall _ _) Hrows row Hin) as Hrow.
    cbn beta in Hrow.
    apply (for_ext_inv wf_grid); [| |done].
    + intros [c val] u Hc Hwfu. unfold place_cell.
      apply elem_of_zip_l, elem_of_seq in Hc. cbn zeta.
      rewrite !bool_decide_eq_true_2 by lia.
      rewrite grid_set_negative by (done || lia).
      f_equal. lia.
    + intros y u u' _. apply place_cell_wf.
  - intros x t t' _. apply place_row_wf.
Qed.

(** ** More on the date helpers *)

Lemma days_since_sunday_ordinal d : days_since_sunday d = ordinal d `mod` 7.
Proof. unfold days_since_sunday, weekday. apply days_since_sunday_eq. Qed.

(** X11. [get_heatmap_start] fails exactly for the clock readings of the
    first 363 days of year 1: for a representable day it raises
    [OverflowError] when the day number is below 364 and returns a date
    otherwise. *)
Theorem get_heatmap_start_overflow (now : datetime) :
  MINORDINAL ≤ ordinal now ≤ MAXORDINAL →
  (get_heatmap_start now = None ↔ ordinal now < 364).
Proof.
  intros Hvalid. split.
  - intros Hnone. destruct (decide (ordinal now < 364)) as [|Hge]; [done|].
    rewrite get_heatmap_start_total in Hnone by lia. done.
  - intros Hlt. destruct (get_heatmap_start now) as [start|] eqn:Hs; [|done].
    apply get_heatmap_start_Some in Hs as (_ & Hge & _). lia.
Qed.

(** X12. The start date is a day at midnight, between 357 and 363 days
    before today, and it depends on the day of the clock reading only,
    not on the time of day. *)
Theorem get_heatmap_start_window (now start : datetime) :
  get_heatmap_start now = Some start →
  micros start = 0
  ∧ ordinal now - 363 ≤ ordinal start ≤ ordinal now - 357
  ∧ ∀ now', ordinal now' = ordinal now → get_heatmap_start now' = Some start.
Proof.
  intros Hs. pose proof Hs as Hs'.
  apply get_heatmap_start_Some in Hs as (-> & Hlo & Hhi).
  pose proof (Z.mod_pos_bound (ordinal now) 7 ltac:(lia)) as Hmod.
  split_and!; simpl; try lia.
  intros now' Heq. rewrite <-Hs'.
  unfold get_heatmap_start, replace_midnight. by rewrite Heq.
Qed.

(** X13. The start date is the same for every clock reading of one
    Sunday-to-Saturday week, and moves by exactly seven days from one
    week to the next. *)
Theorem get_heatmap_start_weekly (now start : datetime) :
  get_heatmap_start now = Some start →
  (∀ now', ordinal start + 357 ≤ ordinal now' < ordinal start + 364 →
           ordinal now' ≤ MAXORDINAL →
           get_heatmap_start now' = Some start)
  ∧ (∀ now', ordinal now' = ordinal now + 7 →
             ordinal now' ≤ MAXORDINAL →
             get_heatmap_start now' = Some (Datetime (ordinal start + 7) 0)).
Proof.
  intros Hs. apply get_heatmap_start_Some in Hs as (-> & Hlo & Hhi).
  pose proof (Z.mod_pos_bound (ordinal now) 7 ltac:(lia)) as Hmod.
  pose proof (Z.div_mod (ordinal now) 7 ltac:(lia)) as Hdiv.
  simpl. split.
  - intros now' Hweek Hmax.
    rewrite get_heatmap_start_total by lia. do 2 f_equal.
    pose proof (Z.mod_pos_bound (ordinal now') 7 ltac:(lia)) as Hmod'.
    pose proof (Z.div_mod (ordinal now') 7 ltac:(lia)) as Hdiv'. lia.
  - intros now' Hnext Hmax.
    rewrite get_heatmap_start_total by lia. do 2 f_equal.
    rewrite Hnext. replace (ordinal now + 7) with (ordinal now + 1 * 7) by lia.
    rewrite Z_mod_plus_full. lia.
Qed.

(** X14. The rows of the grid are the days of the week: with the start
    date [get_heatmap_start] returns, the date of a cell in row [row]
    (below 7) of any column lies [row] days after a Sunday, so row 0 is
    a Sunday, row 1 a Monday, and so on, as the labels of [DAYS] say. *)
Theorem rows_are_weekdays (now start d : datetime) (col row : nat) :
  get_heatmap_start now = Some start →
  (row < 7)%nat →
  col_row_to_date start col row = Some d →
  days_since_sunday d = row
  ∧ weekday d = (row + 6) `mod` 7
  ∧ getitem DAYS (days_since_sunday d) = getitem DAYS row.
Proof.
  intros Hs Hrow Hd.
  apply get_heatmap_start_Some in Hs as (-> & Hlo & Hhi).
  apply col_row_to_date_Some in Hd as [Hd _]. simpl in Hd.
  pose proof (Z.div_mod (ordinal now) 7 ltac:(lia)) as Hdiv.
  assert (Hdss : days_since_sunday d = row).
  { rewrite days_since_sunday_ordinal, Hd.
    replace (ordinal now - ordinal now `mod` 7 - 357 + (col * 7 + row))
      with (row + (ordinal now `div` 7 - 51 + col) * 7) by lia.
    rewrite Z_mod_plus_full. apply Z.mod_small. lia. }
  split_and!; [done| |by rewrite Hdss].
  unfold weekday. rewrite Hd.
  replace (ordinal now - ordinal now `mod` 7 - 357 + (col * 7 + row) + 6)
    with (row + 6 + (ordinal now `div` 7 - 51 + col) * 7) by lia.
  by rewrite Z_mod_plus_full.
Qed.

(** X15. Today sits in the last column: with the start date
    [get_heatmap_start] returns, the cell of column 51 and row
    [days_since_sunday] is today, and the cells of the grid whose date
    is after today are exactly those below it in column 51. *)
Theorem today_in_last_column (now start : datetime) :
  get_heatmap_start now = Some start →
  ordinal now ≤ MAXORDINAL →
  let today := replace_midnight now in
  0 ≤ days_since_sunday today < 7
  ∧ col_row_to_date start 51 (days_since_sunday today) = Some today
  ∧ ∀ (col row : nat) d,
      (col < COLS)%nat → (row < 7)%nat →
      col_row_to_date start col row = Some d →
      (dt_lt today d ↔ col = 51%nat ∧ days_since_sunday today < row).
Proof.
  intros Hs Hmax today.
  apply get_heatmap_start_Some in Hs as (-> & Hlo & Hhi).
  pose proof (Z.mod_pos_bound (ordinal now) 7 ltac:(lia)) as Hmod.
  rewrite days_since_sunday_ordinal. unfold today. simpl.
  split_and!; try lia.
  - unfold col_row_to_date.
    rewrite timedelta_days_small by (unfold MAX_DELTA_DAYS; lia).
    rewrite bind_Some_eq. unfold dt_add. simpl.
    rewrite bool_decide_eq_true_2 by (unfold MINORDINAL; lia).
    unfold replace_midnight. do 2 f_equal. lia.
  - intros col row d Hcol Hrow Hd.
    apply col_row_to_date_Some in Hd as [Hd Hm]. simpl in Hd, Hm.
    unfold dt_lt. simpl. unfold COLS in Hcol. lia.
Qed.

(** X16. A date determines its cell: for a row below 7, the column and
    the row are the quotient and the remainder by 7 of the number of
    days between the start date and the date of the cell. *)
Theorem cell_of_date (start d : datetime) (col row : nat) :
  (row < 7)%nat →
  col_row_to_date start col row = Some d →
  (ordinal d - ordinal start) `div` 7 = col
  ∧ (ordinal d - ordinal start) `mod` 7 = row.
Proof.
  intros Hrow Hd. apply col_row_to_date_Some in Hd as [Hd _].
  replace (ordinal d - ordinal start) with (row + col * 7) by lia.
  rewrite Z_mod_plus_full, Z.div_add by lia.
  rewrite Z.mod_small, Z.div_small by lia. lia.
Qed.

(** X17. [col_row_to_date] fails exactly when the date leaves the
    calendar: from a representable start date and for a cell of
    non-negative offset, it raises [OverflowError] if and only if the
    day would be after 9999-12-31. *)
Theorem col_row_to_date_overflow (start : datetime) (col row : nat) :
  MINORDINAL ≤ ordinal start ≤ MAXORDINAL →
  (col_row_to_date start col row = None
   ↔ MAXORDINAL < ordinal start + (col * 7 + row)).
Proof.
  intros Hvalid. split.
  - intros Hnone.
    destruct (decide (MAXORDINAL < ordinal start + (col * 7 + row)))
      as [|Hle]; [done|].
    destruct (col_row_to_date_total start col row) as [d Hd]; try lia.
    congruence.
  - intros Hover.
    destruct (col_row_to_date start col row) as [d|] eqn:Hd; [|done].
    unfold col_row_to_date in Hd.
    destruct (timedelta_days _) as [delta|] eqn:Hdelta; simpl in Hd; [|done].
    apply timedelta_days_Some in Hdelta as ->.
    apply dt_add_Some in Hd as [_ Hd]. lia.
Qed.

(** ** More on the commit driver: the trace, call by call *)

Lemma replay_app `(run : invocation → World → completed * World)
    (cs1 cs2 : list invocation) (w : World) :
  replay run (cs1 ++ cs2) w
  = let '(r1, w1) := replay run cs1 w in
    let '(r2, w2) := replay run cs2 w1 in
    (r1 ++ r2, w2).
Proof.
  revert w. induction cs1 as [|c cs1 IH]; intros w; simpl.
  - by destruct (replay run cs2 w).
  - destruct (run c w) as [r w1]. rewrite IH.
    destruct (replay run cs1 w1) as [r1 w2].
    by destruct (replay run cs2 w2).
Qed.

Lemma expected_errors_app strip (c : Z) new1 new2 :
  expected_errors strip c (new1 ++ new2)
  = expected_errors strip c new1
    ++ expected_errors strip (c + length new1) new2.
Proof.
  revert c. induction new1 as [|[call res] new1 IH]; intros c; simpl.
  - by rewrite Z.add_0_r.
  - rewrite IH, <-app_assoc. do 3 f_equal. lia.
Qed.

Lemma errors_of_app out1 out2 :
  errors_of (out1 ++ out2) = errors_of out1 ++ errors_of out2.
Proof. apply omap_app. Qed.

Lemma date_of_col_row (start d : datetime) (col row : nat) :
  col_row_to_date start col row = Some d → d = date_of start col row.
Proof.
  intros Hd. apply col_row_to_date_Some in Hd as [Ho Hm].
  destruct d as [o m]. unfold date_of. simpl in *. by subst.
Qed.

Lemma list_bind_singleton {A B} (x : A) (k : A → list B) : [x] ≫= k = k x.
Proof. rewrite bind_cons. cbn. apply app_nil_r. Qed.

Lemma planned_dates_app g start cs1 cs2 :
  planned_dates g start (cs1 ++ cs2)
  = planned_dates g start cs1 ++ planned_dates g start cs2.
Proof. unfold planned_dates. apply bind_app. Qed.

Lemma planned_dates_sorted (g : Grid) (start : datetime) cs :
  StronglySorted cell_before cs →
  Forall (λ x, (x.2 < 7)%nat) cs →
  StronglySorted dt_le (planned_dates g start cs).
Proof.
  induction 1 as [|x cs Hsorted IH Hbefore]; intros Hrows.
  - constructor.
  - apply Forall_cons in Hrows as [Hx Hrows].
    change (x :: cs) with ([x] ++ cs). rewrite planned_dates_app.
    apply StronglySorted_app_2; [| |by apply IH].
    + intros d1 d2 H1 H2. unfold planned_dates in H1, H2.
      rewrite list_bind_singleton in H1.
      apply elem_of_replicate in H1 as [-> _].
      apply list_elem_of_bind in H2 as (y & H2 & Hy).
      apply elem_of_replicate in H2 as [-> _].
      pose proof (proj1 (Forall_forall _ _) Hbefore y Hy) as Hlt.
      pose proof (proj1 (Forall_forall _ _) Hrows y Hy) as Hyr.
      left. left. unfold date_of. simpl in *.
      destruct Hlt as [Hlt|[Heq Hlt]]; lia.
    + unfold planned_dates. rewrite list_bind_singleton.
      generalize (Z.to_nat (cellv g x.2 x.1)). intros n.
      induction n as [|n IHn]; simpl; constructor; [done|].
      apply Forall_forall. intros d Hd.
      apply elem_of_replicate in Hd as [-> _]. by right.
Qed.

Section trace_facts.
Context {World : Type}.
Variable run : invocation → World → completed * World.
Variable strftime : string → datetime → string.
Variable strip : string → string.

Implicit Types (f : frame World) (p : process World).

Lemma trace_rel_refl f : trace_rel run strip f f [] [].
Proof. done. Qed.

Lemma trace_rel_trans f1 f2 f3 new1 new2 out1 out2 :
  count f2 = count f1 + length new1 →
  trace_rel run strip f1 f2 new1 out1 →
  trace_rel run strip f2 f3 new2 out2 →
  trace_rel run strip f1 f3 (new1 ++ new2) (out1 ++ out2).
Proof.
  intros Hcount (Hr1 & Ha1 & He1) (Hr2 & Ha2 & He2). unfold trace_rel.
  rewrite !fmap_app. split_and!.
  - by rewrite replay_app, Hr1, Hr2.
  - rewrite Ha1, Ha2, length_app, seq_app, fmap_app. f_equal.
    rewrite Nat.add_0_l.
    replace (seq (length new1) (length new2))
      with ((λ i, length new1 + i)%nat <$> seq 0 (length new2))
      by (by rewrite fmap_add_seq, Nat.add_0_r).
    rewrite <-list_fmap_compose. apply list_fmap_ext.
    intros _ i _. simpl. f_equal. lia.
  - by rewrite errors_of_app, expected_errors_app, He1, He2, Hcount.
Qed.

Lemma commit_once_exact e f :
  ∃ f' result errs,
    commit_once run strip e f = Some f'
    ∧ run_rel f f' [(Invocation (commit_argv (count f + 1)) e, result)] errs
    ∧ trace_rel run strip f f'
        [(Invocation (commit_argv (count f + 1)) e, result)] errs
    ∧ Forall is_error errs.
Proof.
  unfold commit_once, subprocess_run.
  fold (commit_argv (count f + 1)).
  destruct (run _ _) as [result w] eqn:Hcall.
  case_bool_decide as Hrc.
  - eexists _, result, [_]. split; [done|]. split_and!.
    + unfold run_rel. simpl. rewrite failures_singleton. simpl.
      rewrite bool_decide_eq_true_2 by done.
      split_and!; try done; lia.
    + unfold trace_rel. simpl. rewrite Hcall.
      rewrite bool_decide_eq_true_2 by done.
      split_and!; try done. do 2 f_equal. lia.
    + constructor; [|done]. by eexists _, _.
  - eexists _, result, []. split; [done|]. split_and!.
    + unfold run_rel. simpl. rewrite failures_singleton. simpl.
      rewrite bool_decide_eq_false_2 by lia.
      rewrite app_nil_r. split_and!; try done; lia.
    + unfold trace_rel. simpl. rewrite Hcall.
      rewrite bool_decide_eq_false_2 by lia.
      split_and!; try done. do 2 f_equal. lia.
    + done.
Qed.

Lemma commit_burst_exact e (xs : list nat) :
  ∀ f, ∃ f' new errs,
    for_ xs (λ _, commit_once run strip e) f = Some f'
    ∧ run_rel f f' new errs
    ∧ trace_rel run strip f f' new errs
    ∧ length new = length xs
    ∧ (env ∘ fst) <$> new = replicate (length xs) e
    ∧ Forall is_error errs.
Proof.
  induction xs as [|x xs IH]; intros f; cbn [for_].
  - exists f, [], []. split_and!; try done. apply run_rel_refl.
  - destruct (commit_once_exact e f)
      as (f1 & result & errs1 & -> & Hrel1 & Htr1 & Herr1).
    rewrite bind_Some_eq.
    destruct (IH f1)
      as (f' & new & errs & Hrun & Hrel & Htr & Hlen & Henv & Herr).
    eexists f', ([_] ++ new), (errs1 ++ errs). split_and!.
    + done.
    + by eapply run_rel_trans.
    + eapply trace_rel_trans; [|done..].
      destruct Hrel1 as (_ & _ & Hn & _). exact Hn.
    + simpl. by rewrite Hlen.
    + rewrite fmap_app, Henv. reflexivity.
    + by apply Forall_app.
Qed.

Lemma errors_of_progress (b : bool) c t :
  errors_of (if b then [Progress_line c t] else []) = [].
Proof. by destruct b. Qed.

Lemma commit_cell_exact (g : Grid) start total (col row : nat) f :
  wf_grid g → (col < COLS)%nat → (row < ROWS)%nat →
  (cellv g row col ≠ 0 → is_Some (col_row_to_date start col row)) →
  ∃ f' new out,
    commit_cell run strftime strip g start total col row f = Some f'
    ∧ run_rel f f' new out
    ∧ trace_rel run strip f f' new out
    ∧ (env ∘ fst) <$> new
      = replicate (Z.to_nat (cellv g row col))
          (env_for strftime (environ (proc f)) (date_of start col row)).
Proof.
  intros Hwf Hcol Hrow Hdate. unfold commit_cell.
  rewrite grid_get_cellv by done. rewrite bind_Some_eq. unfold truthy.
  case_bool_decide as Hv; cbn [negb].
  - destruct (Hdate Hv) as [date Hd]. rewrite Hd, bind_Some_eq.
    rewrite (date_of_col_row _ _ _ _ Hd). cbv zeta.
    fold (env_for strftime (environ (proc f)) (date_of start col row)).
    set (e := env_for _ _ _).
    destruct (commit_burst_exact e (rangeZ (cellv g row col)) f)
      as (f1 & new & errs & -> & Hrel & Htr & Hlen & Henv & Herr).
    rewrite bind_Some_eq.
    assert (Hn : length (rangeZ (cellv g row col))
                 = Z.to_nat (cellv g row col)).
    { unfold rangeZ. by rewrite length_seq. }
    rewrite Hn in Henv.
    case_bool_decide as Hmod.
    + eexists _, new, (errs ++ [Progress_line (count f1) total]).
      split; [done|].
      destruct Hrel as (Hc & Ho & Hcn & He & Hvn).
      destruct Htr as (Hr & Ha & Herrs).
      split_and!; [| |done].
      * unfold run_rel. simpl. rewrite Ho, app_assoc. done.
      * unfold trace_rel. simpl. split_and!; try done.
        rewrite errors_of_app. simpl. by rewrite app_nil_r.
    + exists f1, new, errs. done.
  - exists f, [], []. split_and!; try done.
    + apply run_rel_refl.
    + assert (cellv g row col = 0) as -> by lia. done.
Qed.

Lemma commit_cells_exact (g : Grid) start total cs :
  wf_grid g → visitable g start cs →
  ∀ f, ∃ f' new out,
    for_ cs (λ '(col, row),
      commit_cell run strftime strip g start total col row) f = Some f'
    ∧ run_rel f f' new out
    ∧ trace_rel run strip f f' new out
    ∧ (env ∘ fst) <$> new
      = env_for strftime (environ (proc f)) <$> planned_dates g start cs.
Proof.
  intros Hwf Hvis.
  induction Hvis as [|[col row] cs (Hcol & Hrow & Hd) _ IH]; intros f.
  - exists f, [], []. split_and!; try done. apply run_rel_refl.
  - cbn [for_].
    destruct (commit_cell_exact g start total col row f Hwf Hcol Hrow Hd)
      as (f1 & new1 & out1 & -> & Hrel1 & Htr1 & Henv1).
    rewrite bind_Some_eq.
    destruct (IH f1) as (f' & new & out & Hrun & Hrel & Htr & Henv).
    exists f', (new1 ++ new), (out1 ++ out). split_and!.
    + done.
    + by eapply run_rel_trans.
    + eapply trace_rel_trans; [|done..].
      by destruct Hrel1 as (_ & _ & Hn & _).
    + rewrite fmap_app, Henv1, Henv.
      destruct Hrel1 as (_ & _ & _ & _ & ->).
      change ((col, row) :: cs) with ([(col, row)] ++ cs).
      rewrite planned_dates_app, fmap_app. f_equal.
      unfold planned_dates. rewrite list_bind_singleton.
      by rewrite fmap_replicate.
Qed.

(** What a run of [make_commits] does, call by call. *)
Lemma make_commits_exact now (g : Grid) p :
  wf_grid g → clock_ok now →
  ∃ p' start new out,
    make_commits run strftime strip now g p = Some p'
    ∧ get_heatmap_start now = Some start
    ∧ calls p' = calls p ++ new
    ∧ stdout p' = stdout p ++ out
    ∧ replay run (fst <$> new) (world p) = (snd <$> new, world p')
    ∧ argv <$> (fst <$> new)
      = (λ i : nat, commit_argv (1 + i)) <$> seq 0 (length new)
    ∧ (env ∘ fst) <$> new
      = env_for strftime (environ p)
          <$> planned_dates g start cells_in_order
    ∧ errors_of out = expected_errors strip 0 new.
Proof.
  intros Hwf Hclock.
  pose proof Hclock as [Hlo Hhi].
  assert (∃ start, get_heatmap_start now = Some start) as [start Hs].
  { eexists. apply get_heatmap_start_total. unfold MAXORDINAL in *. lia. }
  assert (∃ T, total_needed g = Some T) as [T HT].
  { eexists. by apply total_needed_sum. }
  pose (f0 := Frame
    (print (Total_line T) (print (Start_line (strftime "%Y-%m-%d" start)) p))
    0 0).
  destruct (commit_cells_exact g start T cells_in_order Hwf
              (cells_visitable g now start Hclock Hs) f0)
    as (f & new & out & Hloop & Hrel & Htr & Henv).
  rewrite <-commit_loop_cells in Hloop.
  unfold make_commits. rewrite Hs, bind_Some_eq, HT, bind_Some_eq.
  fold f0. rewrite Hloop, bind_Some_eq.
  destruct Hrel as (Hc & Ho & Hn & He & Hv).
  destruct Htr as (Hr & Ha & Herrs).
  unfold f0 in Hc, Ho, Hn, He, Hv, Hr, Ha, Herrs, Henv.
  cbn [count errors proc environ calls stdout world print]
    in Hc, Ho, Hn, He, Hv, Hr, Ha, Herrs, Henv.
  eexists _, start, new,
    ([Start_line (strftime "%Y-%m-%d" start); Total_line T] ++ out
     ++ [Done_line (count f) (errors f)]
     ++ (if bool_decide (errors f = 0) then [Push_line] else [])).
  split; [reflexivity|].
  split_and!; try done.
  - case_bool_decide; cbn [calls print]; by rewrite Hc.
  - case_bool_decide; cbn [stdout print]; rewrite Ho, <-!app_assoc;
      reflexivity.
  - case_bool_decide; cbn [world print]; by rewrite Hr.
  - rewrite !errors_of_app, Herrs.
    replace (errors_of (if bool_decide (errors f = 0)
                        then [Push_line] else []))
      with (@nil (Z * string)) by (by case_bool_decide).
    simpl. by rewrite app_nil_r.
Qed.

Lemma expected_errors_length (c : Z) new :
  (length (expected_errors strip c new) : Z) = failures new.
Proof.
  revert c. induction new as [|[call res] new IH]; intros c; [done|].
  cbn [expected_errors]. rewrite length_app, Nat2Z.inj_add, IH.
  change ((call, res) :: new) with ([(call, res)] ++ new).
  rewrite failures_app, failures_singleton. simpl.
  by case_bool_decide.
Qed.

(** X18. The commits are labelled in sequence: the child process number
    [k] of a run (counting from 1) is [git commit --allow-empty -m] with
    the message [pixel #k], whether or not earlier ones failed, so no two
    commits of a run carry the same message. *)
Theorem commits_numbered now (g : Grid) p :
  wf_grid g →
  clock_ok now →
  ∃ p' new,
    make_commits run strftime strip now g p = Some p'
    ∧ calls p' = calls p ++ new
    ∧ (∀ (k : nat) call, new !! k = Some call →
         argv call.1
         = ["git"; "commit"; "--allow-empty"; "-m";
            "pixel #" +:+ pretty (Z.of_nat k + 1)])
    ∧ NoDup (argv <$> (fst <$> new)).
Proof.
  intros Hwf Hclock.
  destruct (make_commits_exact now g p Hwf Hclock)
    as (p' & start & new & out & Hrun & _ & Hc & _ & _ & Ha & _).
  exists p', new. split_and!; try done.
  - intros k call Hk.
    assert (Hl : (argv <$> (fst <$> new)) !! k = Some (argv call.1)).
    { by rewrite !list_lookup_fmap, Hk. }
    rewrite Ha, list_lookup_fmap in Hl.
    destruct (seq 0 (length new) !! k) as [i|] eqn:Hi; [|done].
    apply lookup_seq in Hi as [-> _]. simpl in Hl.
    injection Hl as <-. unfold commit_argv.
    by replace (1 + k) with (k + 1) by lia.
  - rewrite Ha. apply NoDup_fmap_2_strong; [|apply NoDup_seq].
    intros i j _ _ Heq. unfold commit_argv in Heq.
    injection Heq as Heq. apply (inj _) in Heq. apply (inj _) in Heq. lia.
Qed.

(** X19. Each cell gets its commits on its own date: the environments
    of the child processes, in the order they are run, are those of the
    cells in column-major order, each cell's timestamp (its date by day
    arithmetic from the start date, formatted at midday) repeated as
    many times as the cell's value. *)
Theorem commits_per_cell now (g : Grid) p :
  wf_grid g →
  clock_ok now →
  ∃ p' start new,
    make_commits run strftime strip now g p = Some p'
    ∧ get_heatmap_start now = Some start
    ∧ calls p' = calls p ++ new
    ∧ (env ∘ fst) <$> new
      = env_for strftime (environ p)
          <$> (x ← cells_in_order;
               replicate (Z.to_nat (cellv g x.2 x.1))
                         (date_of start x.1 x.2)).
Proof.
  intros Hwf Hclock.
  destruct (make_commits_exact now g p Hwf Hclock)
    as (p' & start & new & out & Hrun & Hs & Hc & _ & _ & _ & Henv & _).
  by exists p', start, new.
Qed.

(** X20. The timestamps never go backwards: the child processes of a
    run carry, in the order they are run, the timestamps of a list of
    dates that is non-decreasing. *)
Theorem timestamps_non_decreasing now (g : Grid) p :
  wf_grid g →
  clock_ok now →
  ∃ p' new dates,
    make_commits run strftime strip now g p = Some p'
    ∧ calls p' = calls p ++ new
    ∧ (env ∘ fst) <$> new = env_for strftime (environ p) <$> dates
    ∧ StronglySorted dt_le dates.
Proof.
  intros Hwf Hclock.
  destruct (make_commits_exact now g p Hwf Hclock)
    as (p' & start & new & out & Hrun & Hs & Hc & _ & _ & _ & Henv & _).
  exists p', new, (planned_dates g start cells_in_order).
  split_and!; try done.
  apply planned_dates_sorted; [apply cells_sorted|].
  apply Forall_forall. intros [col row] Hin.
  apply elem_of_cells in Hin as [_ Hrow]. done.
Qed.

(** A list of calls is known from its argument vectors and its
    environments. *)
Lemma invocations_eq (h : nat → list string)
    (f : datetime → gmap string string) (cs : list invocation)
    (ds : list datetime) :
  argv <$> cs = h <$> seq 0 (length cs) →
  env <$> cs = f <$> ds →
  cs = imap (λ k d, Invocation (h k) (f d)) ds.
Proof.
  revert h ds. induction cs as [|[a e] cs IH]; intros h ds Ha He.
  - by destruct ds.
  - destruct ds as [|d ds]; [done|].
    cbn [length seq fmap list_fmap argv env] in Ha, He.
    injection Ha as Ha0 Ha. injection He as He0 He.
    rewrite <-fmap_S_seq, <-list_fmap_compose in Ha.
    rewrite imap_cons. subst a e. f_equal.
    exact (IH (h ∘ S) ds Ha He).
Qed.

(** X21. What a run calls never depends on what the calls return. For
    every behaviour of the child processes, failures included, the run
    issues exactly the planned calls: one per planned date, numbered
    from 1, with that date's timestamp. They are run in that order, each
    on the repository the previous one left, and the repository after
    the run is the one the last call left. So a failed call neither
    stops the run nor makes it skip or repeat a later call. *)
Theorem calls_run_in_sequence now (g : Grid) p :
  wf_grid g →
  clock_ok now →
  ∃ p' start new,
    make_commits run strftime strip now g p = Some p'
    ∧ get_heatmap_start now = Some start
    ∧ calls p' = calls p ++ new
    ∧ fst <$> new = planned_calls strftime (environ p) g start
    ∧ replay run (planned_calls strftime (environ p) g start) (world p)
      = (snd <$> new, world p').
Proof.
  intros Hwf Hclock.
  destruct (make_commits_exact now g p Hwf Hclock)
    as (p' & start & new & out & Hrun & Hs & Hc & _ & Hr & Ha & Henv & _).
  assert (Hplan : fst <$> new = planned_calls strftime (environ p) g start).
  { apply (invocations_eq (λ i : nat, commit_argv (1 + i))).
    - by rewrite length_fmap.
    - by rewrite <-list_fmap_compose. }
  exists p', start, new. split_and!; try done.
  by rewrite <-Hplan.
Qed.

(** X22. Every failure is reported, and nothing else is: the error
    lines a run prints are, in order, one per child process that
    returned a non-zero status, each showing the number of that commit
    and its stripped standard error. *)
Theorem errors_reported now (g : Grid) p :
  wf_grid g →
  clock_ok now →
  ∃ p' new out,
    make_commits run strftime strip now g p = Some p'
    ∧ calls p' = calls p ++ new
    ∧ stdout p' = stdout p ++ out
    ∧ errors_of out = expected_errors strip 0 new
    ∧ (length (errors_of out) : Z) = failures new.
Proof.
  intros Hwf Hclock.
  destruct (make_commits_exact now g p Hwf Hclock)
    as (p' & start & new & out & Hrun & _ & Hc & Ho & _ & _ & _ & He).
  exists p', new, out. split_and!; try done.
  rewrite He. apply expected_errors_length.
Qed.

End trace_facts.

(** ** More on the preview *)

Lemma string_app_cons a (s t : string) :
  String a s +:+ t = String a (s +:+ t).
Proof. reflexivity. Qed.

Lemma string_app_nil_r (s : string) : s +:+ "" = s.
Proof.
  induction s as [|a s IH]; [done|]. by rewrite string_app_cons, IH.
Qed.

Lemma string_app_assoc (s1 s2 s3 : string) :
  (s1 +:+ s2) +:+ s3 = s1 +:+ (s2 +:+ s3).
Proof.
  induction s1 as [|a s1 IH]; [done|]. by rewrite !string_app_cons, IH.
Qed.

Lemma string_app_length (s1 s2 : string) :
  String.length (s1 +:+ s2) = (String.length s1 + String.length s2)%nat.
Proof.
  induction s1 as [|a s1 IH]; [done|].
  rewrite string_app_cons. simpl. by rewrite IH.
Qed.

Lemma render_length (row : list Z) : String.length (render row) = length row.
Proof.
  induction row as [|v row IH]; [done|].
  unfold render in *. cbn [foldr length].
  rewrite string_app_length, IH. unfold glyph. by case_bool_decide.
Qed.

Lemma row_str_loop (g : Grid) (r : nat) (row : list Z) :
  g !! r = Some row →
  ∀ (todo done : list Z) (acc : string),
    row = done ++ todo →
    for_ (seq (length done) (length todo)) (λ c acc,
      v ← grid_get g r c;
      Some (acc +:+ (if bool_decide (v = COMMITS_FILL) then "#" else ".")))
      acc
    = Some (acc +:+ render todo).
Proof.
  intros Hrow. induction todo as [|v todo IH]; intros done acc Hsplit.
  - cbn [length seq for_]. by rewrite string_app_nil_r.
  - cbn [length seq for_].
    rewrite grid_get_nat. unfold cell. rewrite Hrow, bind_Some_eq, Hsplit.
    rewrite lookup_app_r, Nat.sub_diag by lia. cbn [lookup list_lookup].
    rewrite bind_Some_eq. cbv beta.
    replace (S (length done)) with (length (done ++ [v]))
      by (rewrite length_app; simpl; lia).
    rewrite bind_Some_eq. cbv beta.
    rewrite (IH (done ++ [v])) by (by rewrite <-app_assoc).
    unfold render. cbn [foldr]. fold (render todo). fold (glyph v).
    by rewrite string_app_assoc.
Qed.

Lemma row_str_spec (g : Grid) (r : nat) (row : list Z) :
  wf_grid g → g !! r = Some row → row_str g r = Some (render row).
Proof.
  intros Hwf Hrow. destruct (wf_row _ _ _ Hwf Hrow) as [Hlen _].
  unfold row_str, range. rewrite <-Hlen.
  exact (row_str_loop g r row Hrow row [] "" eq_refl).
Qed.

(** X23. A row of the rendering is the row of the grid, glyph for
    cell: for a 7x52 grid, [row_str] of a row is the concatenation, in
    column order, of one glyph per cell, [#] for a cell equal to
    [COMMITS_FILL] and [.] for any other, 52 characters in all. *)
Theorem row_str_glyphs (g : Grid) (r : nat) (row : list Z) :
  wf_grid g →
  g !! r = Some row →
  row_str g r
  = Some (foldr (λ v s,
            (if bool_decide (v = COMMITS_FILL) then "#" else ".") +:+ s)
            "" row)
  ∧ String.length (render row) = 52%nat.
Proof.
  intros Hwf Hrow. split.
  - by apply row_str_spec.
  - rewrite render_length. by destruct (wf_row _ _ _ Hwf Hrow).
Qed.

Section preview_facts.
Variable strftime : string → datetime → string.

Lemma preview_rows (g : Grid) :
  wf_grid g →
  for_ (range 7) (λ r acc,
      row_str ← row_str g r;
      label ← row_label r;
      Some (acc ++ [Preview_row label row_str])) []
  = Some (zip_with Preview_row ROW_LABELS (render <$> g)).
Proof.
  intros Hwf. pose proof Hwf as [Hlen _].
  destruct g as [|r0 [|r1 [|r2 [|r3 [|r4 [|r5 [|r6 [|]]]]]]]]; try done.
  unfold range. cbn [seq for_].
  rewrite (row_str_spec _ 0 r0), (row_str_spec _ 1 r1),
    (row_str_spec _ 2 r2), (row_str_spec _ 3 r3), (row_str_spec _ 4 r4),
    (row_str_spec _ 5 r5), (row_str_spec _ 6 r6) by done.
  reflexivity.
Qed.

(** X24. The layout of the preview: for a 7x52 grid and a clock reading
    whose dates are representable, [preview] prints the title, the two
    column rulers and a rule, then the seven rows of the grid (each with
    its label and its glyphs), then a rule, the date range from the
    start date to the day 363 days later, the number of filled cells,
    the total, and the hint. *)
Theorem preview_layout (now : datetime) (g : Grid) :
  wf_grid g →
  clock_ok now →
  ∃ out start n,
    preview strftime now g = Some out
    ∧ get_heatmap_start now = Some start
    ∧ lit_fill g = Some n
    ∧ out
      = [Preview_title;
         Preview_tens "0         1         2         3         4         5 ";
         Preview_ones "0123456789012345678901234567890123456789012345678901";
         Preview_rule]
        ++ zip_with Preview_row ROW_LABELS (render <$> g)
        ++ [Preview_rule;
            Preview_range
              (strftime "%Y-%m-%d" start)
              (strftime "%Y-%m-%d" (Datetime (ordinal start + 363) 0));
            Preview_cells n COMMITS_FILL;
            Preview_total (n * COMMITS_FILL);
            Preview_hint].
Proof.
  intros Hwf Hclock. pose proof Hclock as [Hlo Hhi].
  assert (∃ n, lit_fill g = Some n) as [n Hn].
  { eexists. by apply lit_fill_sum. }
  assert (Hs : get_heatmap_start now
    = Some (Datetime (ordinal now - ordinal now `mod` 7 - 357) 0)).
  { apply get_heatmap_start_total. unfold MAXORDINAL in *. lia. }
  pose proof (Z.mod_pos_bound (ordinal now) 7 ltac:(lia)) as Hmod.
  destruct (col_row_to_date_total
    (Datetime (ordinal now - ordinal now `mod` 7 - 357) 0)
    (COLS - 1)%nat 6) as [e He];
    [simpl; unfold MINORDINAL, MAXORDINAL in *; lia
    |unfold COLS; lia
    |simpl; unfold MINORDINAL, MAXORDINAL, COLS in *; lia|].
  assert (e = Datetime (ordinal now - ordinal now `mod` 7 - 357 + 363) 0)
    as Hend.
  { apply col_row_to_date_Some in He as [Ho Hm]. destruct e as [o m].
    simpl in *. f_equal; [|done]. unfold COLS in Ho. lia. }
  eexists _, _, n. split_and!; [|exact Hs|exact Hn|reflexivity].
  unfold preview. rewrite Hn, bind_Some_eq. cbv beta zeta.
  rewrite preview_rows, bind_Some_eq by done.
  rewrite Hs, bind_Some_eq, He, bind_Some_eq, Hend.
  repeat f_equal; by vm_compute.
Qed.

End preview_facts.
(** ** Example runs *)

Lemma final_grid_wf : wf_grid final_grid.
Proof. unfold wf_grid. apply (bool_decide_unpack _). by vm_compute. Qed.

Lemma final_grid_shaded : shaded final_grid.
Proof. unfold shaded. apply (bool_decide_unpack _). by vm_compute. Qed.

Lemma grid0_wf : wf_grid grid0.
Proof. unfold wf_grid. apply (bool_decide_unpack _). by vm_compute. Qed.

Lemma sample_clock_ok : clock_ok sample_now.
Proof. unfold clock_ok, MAXORDINAL, sample_now. simpl. lia. Qed.

(** The claim of C8 as the specification words it fails on the run in
    which only the first commit fails: the 200th successful commit is
    then the 201st child process, and no progress line shows 201 (the
    lines show 200, 400, ...: the first was printed after 199
    successes). *)
Lemma progress_not_at_200th_success :
  ∃ p', commit_mode fail_first sample_strftime id sample_now sample_process
        = Some p'
      ∧ ¬ progress_at_every_200th_success (calls p') (stdout p').
Proof.
  assert (Hout : (λ p, progress_of (stdout p)) <$>
      commit_mode fail_first sample_strftime id sample_now sample_process
    = Some ((λ k, (200 * k, 2670)) <$> seqZ 1 13))
    by (vm_compute; reflexivity).
  assert (Hcall : (λ p, (returncode ∘ snd) <$> calls p !! 200%nat) <$>
      commit_mode fail_first sample_strftime id sample_now sample_process
    = Some (Some 0)) by (vm_compute; reflexivity).
  assert (Hsucc : (λ p, successes (take 201 (calls p))) <$>
      commit_mode fail_first sample_strftime id sample_now sample_process
    = Some 200) by (vm_compute; reflexivity).
  destruct (commit_mode fail_first sample_strftime id sample_now
              sample_process) as [p'|]; [|discriminate Hout].
  exists p'. split; [reflexivity|]. intros Hclaim.
  apply (inj Some) in Hout, Hcall, Hsucc.
  destruct (Hclaim 1%nat 201%nat) as [t Ht].
  - lia.
  - split_and!; [lia| |exact Hsucc].
    change (201 - 1)%nat with 200%nat.
    destruct (calls p' !! 200%nat) as [call|]; [|discriminate Hcall].
    exists call. split; [reflexivity|]. by apply (inj Some) in Hcall.
  - rewrite Hout in Ht.
    apply list_elem_of_fmap in Ht as (k & Hk & _).
    injection Hk as Hk _. lia.
Qed.

(** Instances of the theorems above on concrete data. *)

Lemma make_commits_tally_witness :
  wf_grid final_grid ∧ shaded final_grid ∧ clock_ok sample_now
  ∧ total_needed final_grid = Some 2670
  ∧ ∃ p' new start out,
      make_commits fail_first sample_strftime id sample_now final_grid
        sample_process = Some p'
      ∧ calls p' = calls sample_process ++ new
      ∧ (length new : Z) = 2670
      ∧ stdout p'
        = stdout sample_process
          ++ [Start_line (sample_strftime "%Y-%m-%d" start); Total_line 2670]
          ++ out
          ++ [Done_line 2670 (failures new)]
          ++ (if bool_decide (failures new = 0) then [Push_line] else [])
      ∧ Forall is_loop_line out.
Proof.
  assert (HT : total_needed final_grid = Some 2670)
    by (vm_compute; reflexivity).
  split_and!;
    [exact final_grid_wf | exact final_grid_shaded | exact sample_clock_ok
    | exact HT |].
  exact (make_commits_tally fail_first sample_strftime id sample_now
           final_grid sample_process 2670 final_grid_wf final_grid_shaded
           sample_clock_ok HT).
Defined.

Lemma cell_dates_increase_witness :
  (6 < 7)%nat ∧ (0 < 7)%nat ∧ cell_before (0%nat, 6%nat) (1%nat, 0%nat)
  ∧ ∃ d1 d2,
      col_row_to_date sample_now 0%nat 6%nat = Some d1
      ∧ col_row_to_date sample_now 1%nat 0%nat = Some d2
      ∧ dt_lt d1 d2.
Proof.
  assert (Hb : cell_before (0%nat, 6%nat) (1%nat, 0%nat))
    by (left; simpl; lia).
  split_and!; [lia | lia | exact Hb |].
  destruct cell_dates_increase as [Hdates _].
  destruct (Hdates sample_now 0%nat 6%nat 1%nat 0%nat) as [Hlt Htotal];
    [lia | lia | exact Hb |].
  destruct Htotal as [[d1 H1] [d2 H2]];
    [unfold MINORDINAL; simpl; lia | unfold MAXORDINAL; simpl; lia |].
  exists d1, d2. split_and!; [exact H1 | exact H2 | exact (Hlt d1 d2 H1 H2)].
Defined.

Lemma heatmap_start_anchor_witness :
  clock_ok sample_now
  ∧ ∃ start e sunday,
      get_heatmap_start sample_now = Some start
      ∧ col_row_to_date start 51 6 = Some e
      ∧ most_recent_sunday sunday (replace_midnight sample_now)
      ∧ dt_sub sunday 357 = Some start
      ∧ dt_le (replace_midnight sample_now) e.
Proof.
  split; [exact sample_clock_ok|].
  destruct (heatmap_start_anchor sample_now) as [Hret Hspec].
  destruct (Hret sample_clock_ok) as (start & e & Hs & He).
  destruct (Hspec start Hs) as (sunday & Hsun & Hsub & Hlast).
  exists start, e, sunday.
  split_and!; [exact Hs | exact He | exact Hsun | exact Hsub
              | exact (Hlast e He)].
Defined.

Lemma heatmap_start_is_sunday_witness :
  364 ≤ ordinal sample_now ≤ MAXORDINAL
  ∧ ∃ start, get_heatmap_start sample_now = Some start
           ∧ weekday start = SUNDAY.
Proof.
  assert (Hrange : 364 ≤ ordinal sample_now ≤ MAXORDINAL)
    by (unfold MAXORDINAL; simpl; lia).
  split; [exact Hrange|].
  destruct (heatmap_start_is_sunday sample_now) as [Hsun Hret].
  destruct (Hret Hrange) as [start Hs].
  exists start. split; [exact Hs | exact (Hsun start Hs)].
Defined.

Lemma place_clips_witness :
  wf_grid grid0 ∧ (length GHOST ≤ ROWS)%nat
  ∧ Forall (λ row, length row = 7%nat) GHOST ∧ 0 ≤ 48 ∧ 48 + 7%nat > COLS
  ∧ ∃ g', place GHOST 48 grid0 = Some g'
        ∧ wf_grid g'
        ∧ place (take (Z.to_nat (COLS - 48)) <$> GHOST) 48 grid0 = Some g'
        ∧ ∀ r c : nat, (r < ROWS)%nat → (c < COLS)%nat →
            if decide ((r < length GHOST)%nat ∧ 48 ≤ c)
            then ∃ val, sprite_px GHOST r (c - 48) = Some val
                      ∧ cell g' r c = Some (if truthy val then 1 else 0)
            else cell g' r c = cell grid0 r c.
Proof.
  assert (H1 : (length GHOST ≤ ROWS)%nat) by (vm_compute; lia).
  assert (H2 : Forall (λ row, length row = 7%nat) GHOST)
    by (repeat constructor).
  assert (H3 : 0 ≤ 48) by lia.
  assert (H4 : 48 + 7%nat > COLS) by (unfold COLS; lia).
  split_and!; [exact grid0_wf | exact H1 | exact H2 | exact H3 | exact H4 |].
  exact (place_clips GHOST 7 48 grid0 grid0_wf H1 H2 H3 H4).
Defined.

Lemma preview_total_matches_witness :
  wf_grid final_grid ∧ shaded final_grid ∧ clock_ok sample_now
  ∧ ∃ out p',
      lit_fill final_grid = Some 267
      ∧ total_commits final_grid = Some 2670
      ∧ total_needed final_grid = Some 2670
      ∧ preview sample_strftime sample_now final_grid = Some out
      ∧ Preview_total 2670 ∈ out
      ∧ make_commits fail_first sample_strftime id sample_now final_grid
          sample_process = Some p'
      ∧ Total_line 2670 ∈ stdout p'.
Proof.
  split_and!;
    [exact final_grid_wf | exact final_grid_shaded | exact sample_clock_ok |].
  destruct (preview_total_matches fail_first sample_strftime id sample_now
              final_grid sample_process final_grid_wf final_grid_shaded)
    as (n & Hlit & Htc & Htn & Hprint).
  assert (Hn : lit_fill final_grid = Some 267) by (vm_compute; reflexivity).
  assert (n = 267) as -> by congruence.
  destruct (Hprint sample_clock_ok) as (out & p' & Hp & _ & Ht & Hrun & Hl).
  exists out, p'.
  split_and!; [exact Hlit | exact Htc | exact Htn | exact Hp | exact Ht
              | exact Hrun | exact Hl].
Defined.

Lemma grid_after_shading_witness :
  wf_grid grid0
  ∧ ∃ g', compute_shading grid0 = Some g'
        ∧ length g' = 7%nat
        ∧ Forall (λ row, length row = 52%nat) g'
        ∧ Forall (Forall (λ v, v = 0 ∨ v = COMMITS_FILL)) g'.
Proof.
  split; [exact grid0_wf|].
  destruct grid_after_shading as (_ & _ & Hshade).
  exact (Hshade grid0 grid0_wf).
Defined.

Lemma progress_every_200_attempts_witness :
  wf_grid final_grid ∧ shaded final_grid ∧ clock_ok sample_now
  ∧ ∃ p' T new out,
      make_commits fail_first sample_strftime id sample_now final_grid
        sample_process = Some p'
      ∧ total_needed final_grid = Some T
      ∧ calls p' = calls sample_process ++ new
      ∧ (length new : Z) = T
      ∧ stdout p' = stdout sample_process ++ out
      ∧ progress_of out = (λ k, (200 * k, T)) <$> seqZ 1 (T `div` 200).
Proof.
  split_and!;
    [exact final_grid_wf | exact final_grid_shaded | exact sample_clock_ok |].
  exact (progress_every_200_attempts fail_first sample_strftime id sample_now
           final_grid sample_process final_grid_wf final_grid_shaded
           sample_clock_ok).
Defined.




(** Instances of the further theorems on concrete data. *)

Lemma grid0_binary : binary_grid grid0.
Proof. unfold binary_grid. apply (bool_decide_unpack _). by vm_compute. Qed.

Lemma sample_start_eq : get_heatmap_start sample_now = Some sample_start.
Proof. by vm_compute. Qed.

Lemma trail_cells_witness :
  wf_grid grid0
  ∧ ∃ g', trail grid0 = Some g'
        ∧ wf_grid g'
        ∧ cell g' 3 11 = Some 1
        ∧ cell g' 3 12 = cell grid0 3 12.
Proof.
  split; [exact grid0_wf|].
  destruct (trail_cells grid0 grid0_wf) as (g' & Hrun & Hwf & Hcell).
  exists g'.
  split_and!; [exact Hrun | exact Hwf | exact (Hcell 3%nat 11%nat)
              | exact (Hcell 3%nat 12%nat)].
Defined.

Lemma invert_involutive_witness :
  wf_grid grid0
  ∧ ∃ g', invert grid0 = Some g' ∧ wf_grid g' ∧ invert g' = Some grid0.
Proof.
  split; [exact grid0_wf|].
  destruct (invert_involutive grid0 grid0_wf) as (g' & Hrun & Hwf & _ & Hback).
  exists g'. split_and!; [exact Hrun | exact Hwf | exact Hback].
Defined.

Lemma compute_shading_idempotent_witness :
  wf_grid final_grid ∧ shaded final_grid
  ∧ compute_shading final_grid = Some final_grid.
Proof.
  split_and!; [exact final_grid_wf | exact final_grid_shaded |].
  destruct (compute_shading_idempotent final_grid final_grid_wf)
    as (g' & Hrun & _ & _ & Hfix).
  rewrite (Hfix final_grid_shaded) in Hrun. exact Hrun.
Defined.

Lemma compositor_keeps_binary_witness :
  wf_grid grid0 ∧ binary_grid grid0 ∧ (length GHOST ≤ ROWS)%nat ∧ 0 ≤ 3
  ∧ (∃ g', place GHOST 3 grid0 = Some g' ∧ wf_grid g' ∧ binary_grid g')
  ∧ (∃ g', trail grid0 = Some g' ∧ wf_grid g' ∧ binary_grid g')
  ∧ (∃ g', invert grid0 = Some g' ∧ wf_grid g' ∧ binary_grid g').
Proof.
  assert (H1 : (length GHOST ≤ ROWS)%nat) by (vm_compute; lia).
  assert (H2 : 0 ≤ 3) by lia.
  destruct (compositor_keeps_binary grid0 grid0_wf grid0_binary)
    as (Hplace & Htrail & Hinvert).
  split_and!; [exact grid0_wf | exact grid0_binary | exact H1 | exact H2
              | exact (Hplace GHOST 3 H1 H2) | exact Htrail | exact Hinvert].
Defined.

Lemma place_beyond_right_edge_witness :
  COLS ≤ 60 ∧ place TALL_SPRITE 60 grid0 = Some grid0.
Proof.
  assert (H : COLS ≤ 60) by (unfold COLS; lia).
  split; [exact H | exact (place_beyond_right_edge TALL_SPRITE 60 grid0 H)].
Defined.

Lemma place_idempotent_witness :
  wf_grid grid0 ∧ (length GHOST ≤ ROWS)%nat ∧ 0 ≤ 3
  ∧ ∃ g', place GHOST 3 grid0 = Some g' ∧ place GHOST 3 g' = Some g'.
Proof.
  assert (H1 : (length GHOST ≤ ROWS)%nat) by (vm_compute; lia).
  assert (H2 : 0 ≤ 3) by lia.
  split_and!; [exact grid0_wf | exact H1 | exact H2 |].
  exact (place_idempotent GHOST 3 grid0 grid0_wf H1 H2).
Defined.

Lemma place_commutes_witness :
  wf_grid grid0
  ∧ (length GHOST ≤ ROWS)%nat ∧ (length PACMAN_LEFT ≤ ROWS)%nat
  ∧ Forall (λ row, length row = 7%nat) GHOST
  ∧ Forall (λ row, length row = 7%nat) PACMAN_LEFT
  ∧ 0 ≤ 3 ∧ 3 + 7%nat ≤ 41
  ∧ ∃ g', (place GHOST 3 grid0 ≫= place PACMAN_LEFT 41) = Some g'
        ∧ (place PACMAN_LEFT 41 grid0 ≫= place GHOST 3) = Some g'.
Proof.
  assert (H1 : (length GHOST ≤ ROWS)%nat) by (vm_compute; lia).
  assert (H2 : (length PACMAN_LEFT ≤ ROWS)%nat) by (vm_compute; lia).
  assert (H3 : Forall (λ row, length row = 7%nat) GHOST)
    by (repeat constructor).
  assert (H4 : Forall (λ row, length row = 7%nat) PACMAN_LEFT)
    by (repeat constructor).
  assert (H5 : 0 ≤ 3) by lia.
  assert (H6 : 3 + 7%nat ≤ 41) by lia.
  split_and!; [exact grid0_wf | exact H1 | exact H2 | exact H3 | exact H4
              | exact H5 | exact H6 |].
  exact (place_commutes GHOST PACMAN_LEFT 7 7 3 41 grid0 grid0_wf
           H1 H2 H3 H4 H5 H6).
Defined.

Lemma place_tall_sprite_raises_witness :
  wf_grid grid0 ∧ 0 ≤ 3 < COLS
  ∧ TALL_SPRITE !! 7%nat = Some [1; 1; 1; 1; 1; 1; 1]
  ∧ [1; 1; 1; 1; 1; 1; 1] ≠ @nil Z
  ∧ place TALL_SPRITE 3 grid0 = None.
Proof.
  assert (H1 : 0 ≤ 3 < COLS) by (unfold COLS; lia).
  assert (H2 : TALL_SPRITE !! 7%nat = Some [1; 1; 1; 1; 1; 1; 1])
    by reflexivity.
  assert (H3 : [1; 1; 1; 1; 1; 1; 1] ≠ @nil Z) by discriminate.
  exact (conj grid0_wf (conj H1 (conj H2 (conj H3
    (place_tall_sprite_raises TALL_SPRITE 3 grid0 _ grid0_wf H1 H2 H3))))).
Defined.

Lemma place_far_left_raises_witness :
  wf_grid grid0 ∧ -60 < - COLS ∧ [1; 0] ≠ @nil Z
  ∧ place ([1; 0] :: [[0; 1]]) (-60) grid0 = None.
Proof.
  assert (H1 : -60 < - COLS) by (unfold COLS; lia).
  assert (H2 : [1; 0] ≠ @nil Z) by discriminate.
  split_and!; [exact grid0_wf | exact H1 | exact H2 |].
  exact (place_far_left_raises [1; 0] [[0; 1]] (-60) grid0 grid0_wf H1 H2).
Defined.

Lemma place_negative_wraps_witness :
  wf_grid grid0 ∧ - COLS ≤ -7
  ∧ Forall (λ row, -7 + length row ≤ 0) GHOST
  ∧ place GHOST (-7) grid0 = place GHOST (-7 + COLS) grid0.
Proof.
  assert (H1 : - COLS ≤ -7) by (unfold COLS; lia).
  assert (H2 : Forall (λ row, -7 + length row ≤ 0) GHOST)
    by (repeat constructor; simpl; lia).
  split_and!; [exact grid0_wf | exact H1 | exact H2 |].
  exact (place_negative_wraps GHOST (-7) grid0 grid0_wf H1 H2).
Defined.

Lemma get_heatmap_start_overflow_witness :
  MINORDINAL ≤ ordinal early_now ≤ MAXORDINAL
  ∧ ordinal early_now < 364
  ∧ get_heatmap_start early_now = None.
Proof.
  assert (H1 : MINORDINAL ≤ ordinal early_now ≤ MAXORDINAL)
    by (unfold MINORDINAL, MAXORDINAL; simpl; lia).
  assert (H2 : ordinal early_now < 364) by (simpl; lia).
  exact (conj H1 (conj H2
    (proj2 (get_heatmap_start_overflow early_now H1) H2))).
Defined.

Lemma get_heatmap_start_window_witness :
  get_heatmap_start sample_now = Some sample_start
  ∧ micros sample_start = 0
  ∧ ordinal sample_now - 363 ≤ ordinal sample_start ≤ ordinal sample_now - 357
  ∧ get_heatmap_start (Datetime (ordinal sample_now) 0) = Some sample_start.
Proof.
  split; [exact sample_start_eq|].
  destruct (get_heatmap_start_window sample_now sample_start sample_start_eq)
    as (Hm & Hw & Htime).
  exact (conj Hm (conj Hw (Htime _ eq_refl))).
Defined.

Lemma get_heatmap_start_weekly_witness :
  get_heatmap_start sample_now = Some sample_start
  ∧ get_heatmap_start (Datetime 739927 0) = Some sample_start
  ∧ get_heatmap_start (Datetime 739931 5)
    = Some (Datetime (ordinal sample_start + 7) 0).
Proof.
  split; [exact sample_start_eq|].
  destruct (get_heatmap_start_weekly sample_now sample_start sample_start_eq)
    as (Hsame & Hnext).
  split.
  - apply Hsame; [simpl; lia | unfold MAXORDINAL; simpl; lia].
  - apply Hnext; [simpl; lia | unfold MAXORDINAL; simpl; lia].
Defined.

Lemma rows_are_weekdays_witness :
  get_heatmap_start sample_now = Some sample_start
  ∧ (1 < 7)%nat
  ∧ col_row_to_date sample_start 5%nat 1%nat = Some (Datetime 739600 0)
  ∧ days_since_sunday (Datetime 739600 0) = 1%nat
  ∧ weekday (Datetime 739600 0) = (1%nat + 6) `mod` 7
  ∧ getitem DAYS (days_since_sunday (Datetime 739600 0)) = getitem DAYS 1%nat.
Proof.
  assert (H1 : (1 < 7)%nat) by lia.
  assert (H2 : col_row_to_date sample_start 5%nat 1%nat
               = Some (Datetime 739600 0)) by (by vm_compute).
  split_and!; [exact sample_start_eq | exact H1 | exact H2 |..];
    apply (rows_are_weekdays sample_now sample_start (Datetime 739600 0)
             5 1 sample_start_eq H1 H2).
Defined.

Lemma today_in_last_column_witness :
  get_heatmap_start sample_now = Some sample_start
  ∧ ordinal sample_now ≤ MAXORDINAL
  ∧ col_row_to_date sample_start 51
      (days_since_sunday (replace_midnight sample_now))
    = Some (replace_midnight sample_now).
Proof.
  assert (H : ordinal sample_now ≤ MAXORDINAL)
    by (unfold MAXORDINAL; simpl; lia).
  split_and!; [exact sample_start_eq | exact H |].
  exact (proj1 (proj2
    (today_in_last_column sample_now sample_start sample_start_eq H))).
Defined.

Lemma cell_of_date_witness :
  (1 < 7)%nat
  ∧ col_row_to_date sample_start 5%nat 1%nat = Some (Datetime 739600 0)
  ∧ (ordinal (Datetime 739600 0) - ordinal sample_start) `div` 7 = 5%nat
  ∧ (ordinal (Datetime 739600 0) - ordinal sample_start) `mod` 7 = 1%nat.
Proof.
  assert (H1 : (1 < 7)%nat) by lia.
  assert (H2 : col_row_to_date sample_start 5%nat 1%nat
               = Some (Datetime 739600 0)) by (by vm_compute).
  split_and!; [exact H1 | exact H2 |..];
    apply (cell_of_date sample_start (Datetime 739600 0) 5 1 H1 H2).
Defined.

Lemma col_row_to_date_overflow_witness :
  MINORDINAL ≤ ordinal (Datetime 3652000 0) ≤ MAXORDINAL
  ∧ MAXORDINAL < ordinal (Datetime 3652000 0) + (51%nat * 7 + 6%nat)
  ∧ col_row_to_date (Datetime 3652000 0) 51%nat 6%nat = None.
Proof.
  assert (H1 : MINORDINAL ≤ ordinal (Datetime 3652000 0) ≤ MAXORDINAL)
    by (unfold MINORDINAL, MAXORDINAL; simpl; lia).
  assert (H2 : MAXORDINAL
               < ordinal (Datetime 3652000 0) + (51%nat * 7 + 6%nat))
    by (unfold MAXORDINAL; simpl; lia).
  exact (conj H1 (conj H2
    (proj2 (col_row_to_date_overflow (Datetime 3652000 0) 51 6 H1) H2))).
Defined.

Lemma commits_numbered_witness :
  wf_grid final_grid ∧ clock_ok sample_now
  ∧ ∃ p' new,
      make_commits fail_first sample_strftime id sample_now final_grid
        sample_process = Some p'
      ∧ calls p' = calls sample_process ++ new
      ∧ NoDup (argv <$> (fst <$> new)).
Proof.
  split_and!; [exact final_grid_wf | exact sample_clock_ok |].
  destruct (commits_numbered fail_first sample_strftime id sample_now
              final_grid sample_process final_grid_wf sample_clock_ok)
    as (p' & new & Hrun & Hc & _ & Hnodup).
  exists p', new. split_and!; [exact Hrun | exact Hc | exact Hnodup].
Defined.

Lemma commits_per_cell_witness :
  wf_grid final_grid ∧ clock_ok sample_now
  ∧ ∃ p' start new,
      make_commits fail_first sample_strftime id sample_now final_grid
        sample_process = Some p'
      ∧ get_heatmap_start sample_now = Some start
      ∧ calls p' = calls sample_process ++ new
      ∧ (env ∘ fst) <$> new
        = env_for sample_strftime (environ sample_process)
            <$> (x ← cells_in_order;
                 replicate (Z.to_nat (cellv final_grid x.2 x.1))
                           (date_of start x.1 x.2)).
Proof.
  split_and!; [exact final_grid_wf | exact sample_clock_ok |].
  exact (commits_per_cell fail_first sample_strftime id sample_now
           final_grid sample_process final_grid_wf sample_clock_ok).
Defined.

Lemma timestamps_non_decreasing_witness :
  wf_grid final_grid ∧ clock_ok sample_now
  ∧ ∃ p' new dates,
      make_commits fail_first sample_strftime id sample_now final_grid
        sample_process = Some p'
      ∧ calls p' = calls sample_process ++ new
      ∧ (env ∘ fst) <$> new
        = env_for sample_strftime (environ sample_process) <$> dates
      ∧ StronglySorted dt_le dates.
Proof.
  split_and!; [exact final_grid_wf | exact sample_clock_ok |].
  exact (timestamps_non_decreasing fail_first sample_strftime id sample_now
           final_grid sample_process final_grid_wf sample_clock_ok).
Defined.

Lemma calls_run_in_sequence_witness :
  wf_grid final_grid ∧ clock_ok sample_now
  ∧ ∃ p' start new,
      make_commits fail_first sample_strftime id sample_now final_grid
        sample_process = Some p'
      ∧ get_heatmap_start sample_now = Some start
      ∧ calls p' = calls sample_process ++ new
      ∧ fst <$> new
        = planned_calls sample_strftime (environ sample_process)
            final_grid start
      ∧ replay fail_first
          (planned_calls sample_strftime (environ sample_process)
             final_grid start)
          (world sample_process)
        = (snd <$> new, world p').
Proof.
  split_and!; [exact final_grid_wf | exact sample_clock_ok |].
  exact (calls_run_in_sequence fail_first sample_strftime id sample_now
           final_grid sample_process final_grid_wf sample_clock_ok).
Defined.

Lemma errors_reported_witness :
  wf_grid final_grid ∧ clock_ok sample_now
  ∧ ∃ p' new out,
      make_commits fail_first sample_strftime id sample_now final_grid
        sample_process = Some p'
      ∧ calls p' = calls sample_process ++ new
      ∧ stdout p' = stdout sample_process ++ out
      ∧ errors_of out = expected_errors id 0 new
      ∧ (length (errors_of out) : Z) = failures new.
Proof.
  split_and!; [exact final_grid_wf | exact sample_clock_ok |].
  exact (errors_reported fail_first sample_strftime id sample_now
           final_grid sample_process final_grid_wf sample_clock_ok).
Defined.

Lemma row_str_glyphs_witness :
  wf_grid grid0 ∧ grid0 !! 0%nat = Some (replicate COLS 0)
  ∧ row_str grid0 0 = Some (render (replicate COLS 0))
  ∧ String.length (render (replicate COLS 0)) = 52%nat.
Proof.
  assert (H : grid0 !! 0%nat = Some (replicate COLS 0)) by reflexivity.
  split_and!; [exact grid0_wf | exact H |..];
    apply (row_str_glyphs grid0 0 (replicate COLS 0) grid0_wf H).
Defined.

Lemma preview_layout_witness :
  wf_grid final_grid ∧ clock_ok sample_now
  ∧ ∃ out start n,
      preview sample_strftime sample_now final_grid = Some out
      ∧ get_heatmap_start sample_now = Some start
      ∧ lit_fill final_grid = Some n
      ∧ length out = 16%nat.
Proof.
  split_and!; [exact final_grid_wf | exact sample_clock_ok |].
  destruct (preview_layout sample_strftime sample_now final_grid
              final_grid_wf sample_clock_ok)
    as (out & start & n & Hrun & Hs & Hn & Hout).
  exists out, start, n. split_and!; [exact Hrun | exact Hs | exact Hn |].
  rewrite Hout. by vm_compute.
Defined.
